(** * YoutubeTranscriber: a shallow embedding of [youtube_playlist_to_text.py]

    The script resolves a video or playlist URL into a list of video URLs,
    downloads the audio of each one with [yt-dlp], sends every [*.mp3] of the
    download directory that has no transcript yet to the speech-to-text
    service, and prints a summary.

    The embedding follows the script function by function.  The external
    collaborators ([yt-dlp], [json.loads], the OpenAI client, the order in
    which a Python [set] pops its elements, and whether a directory can be
    made and a transcript written) are fields of an environment record;
    the files of the two flat directories and the number of requests sent
    so far are the state that is threaded through the run; console output,
    sub-process runs, requests, sleeps, directories made and files written
    are emitted as a trace of events. *)

From Stdlib Require Import ZArith QArith String Ascii List Lia Bool.
From stdpp Require Import base option list gmap sets strings sorting pretty.

Set Warnings "-register-all".
Local Open Scope Z_scope.

(** ** Python strings

    A [str] is modelled by a [string] whose characters are the code points
    0..255. *)

Module PyStr.

Definition code (c : ascii) : N := N_of_ascii c.

(** [str.lower] on the code points 0..255: [A-Z] and the capital letters
    0xC0..0xDE (0xD7, the multiplication sign, apart) move up by 0x20. *)
Definition lower_char (c : ascii) : ascii :=
  let n := code c in
  if ((65 <=? n) && (n <=? 90) ||
      (192 <=? n) && (n <=? 222) && negb (n =? 215))%N
  then ascii_of_N (n + 32) else c.

Fixpoint lower (s : string) : string :=
  match s with
  | EmptyString => EmptyString
  | String c s' => String (lower_char c) (lower s')
  end.

(** [sub in s] *)
Fixpoint contains (sub s : string) : bool :=
  String.prefix sub s ||
  match s with
  | EmptyString => false
  | String _ s' => contains sub s'
  end.

(** [str.isspace] on the code points 0..255. *)
Definition is_space (c : ascii) : bool :=
  let n := code c in
  ((9 <=? n) && (n <=? 13) || (28 <=? n) && (n <=? 32) ||
   (n =? 133) || (n =? 160))%N.

(** [s.split()]: the maximal runs of characters that are not white space.
    [cur] is the run being read, most recent character first. *)
Fixpoint split_go (cur : option string) (s : string) : list string :=
  match s with
  | EmptyString => option_list (String.rev <$> cur)
  | String c s' =>
      if is_space c
      then option_list (String.rev <$> cur) ++ split_go None s'
      else split_go (Some (String c (default EmptyString cur))) s'
  end.

Definition split (s : string) : list string := split_go None s.

(** [s[:n]] *)
Definition take (n : nat) (s : string) : string := String.substring 0 n s.

(** [s.endswith(suffix)] *)
Definition endswith (s suffix : string) : bool :=
  String.prefix (String.rev suffix) (String.rev s).

(** [s.rfind(".")]: the index of the last dot. *)
Fixpoint rfind_dot_go (s : string) (pos : nat) (last : option nat)
  : option nat :=
  match s with
  | EmptyString => last
  | String c s' =>
      rfind_dot_go s' (S pos)
        (if Ascii.eqb c "."%char then Some pos else last)
  end.

Definition rfind_dot (s : string) : option nat := rfind_dot_go s 0%nat None.

End PyStr.

(** ** Paths

    Both directories are flat, so a file is identified by its name. *)

Module PyPath.

(** [PurePath.stem]: the name without its last suffix; a dot that starts
    or ends the name does not start a suffix. *)
Definition stem (name : string) : string :=
  match PyStr.rfind_dot name with
  | Some i =>
      if ((0 <? i) && (i <? String.length name - 1))%nat
      then PyStr.take i name
      else name
  | None => name
  end.

(** The pattern [*.mp3] of [Path.glob]. *)
Definition is_mp3 (name : string) : bool := PyStr.endswith name ".mp3".

End PyPath.

(** ** JSON values, as [json.loads] returns them

    Numbers are integers (the identifiers and titles that [yt-dlp] reports
    are strings); a [dict] is an association list with distinct keys. *)

Inductive json :=
| JNull
| JBool (b : bool)
| JInt (n : Z)
| JStr (s : string)
| JList (l : list json)
| JDict (d : list (string * json)).

(** ** Exceptions and results *)

Inductive ExnKind :=
| FileNotFoundError | JSONDecodeError | AttributeError | TypeError
| KeyError | ValueError | APIError | PermissionError.

(** The classes the script tells apart; every other subclass of
    [Exception] is an [OtherException]. *)
Inductive Exn :=
| CalledProcessError (returncode : Z)
| RateLimitError (msg : string)
| OtherException (kind : ExnKind) (msg : string).

(** A computation returns, raises, or leaves through [sys.exit]. *)
Inductive Result (A : Type) :=
| Ret (a : A)
| Raise (e : Exn)
| SysExit (code : Z).
Arguments Ret {A} a.
Arguments Raise {A} e.
Arguments SysExit {A} code.

(** The text of the [FileNotFoundError] for a file of [downloads/]. *)
Definition no_such_file (name : string) : string :=
  "[Errno 2] No such file or directory: 'downloads/" +:+ name +:+ "'".

(** [str(e)]; for a [CalledProcessError] the command line is left out. *)
Definition exn_str (e : Exn) : string :=
  match e with
  | CalledProcessError c =>
      "Command returned non-zero exit status " +:+ pretty c +:+ "."
  | RateLimitError msg => msg
  | OtherException _ msg => msg
  end.

Module Py.

(** [bool(v)] *)
Definition truthy (v : json) : bool :=
  match v with
  | JNull => false
  | JBool b => b
  | JInt n => negb (n =? 0)
  | JStr s => negb (String.eqb s "")
  | JList l => match l with [] => false | _ => true end
  | JDict d => match d with [] => false | _ => true end
  end.

Fixpoint assoc (key : string) (d : list (string * json)) : option json :=
  match d with
  | [] => None
  | (k, v) :: d' => if String.eqb k key then Some v else assoc key d'
  end.

(** [v.get(key, dflt)] *)
Definition get (v : json) (key : string) (dflt : json) : Result json :=
  match v with
  | JDict d => Ret (default dflt (assoc key d))
  | _ => Raise (OtherException AttributeError "object has no attribute 'get'")
  end.

(** [v[key]] for a string [key] *)
Definition getitem (v : json) (key : string) : Result json :=
  match v with
  | JDict d =>
      match assoc key d with
      | Some x => Ret x
      | None => Raise (OtherException KeyError key)
      end
  | JList _ | JStr _ =>
      Raise (OtherException TypeError "indices must be integers")
  | _ => Raise (OtherException TypeError "object is not subscriptable")
  end.

(** The elements [for x in v] goes through. *)
Definition iter (v : json) : Result (list json) :=
  match v with
  | JList l => Ret l
  | JStr s => Ret ((λ c, JStr (String c "")) <$> list_ascii_of_string s)
  | JDict d => Ret ((λ kv, JStr kv.1) <$> d)
  | _ => Raise (OtherException TypeError "object is not iterable")
  end.

(** [len(v)] *)
Definition len (v : json) : Result Z :=
  match v with
  | JList l => Ret (Z.of_nat (length l))
  | JStr s => Ret (Z.of_nat (String.length s))
  | JDict d => Ret (Z.of_nat (length d))
  | _ => Raise (OtherException TypeError "object has no len()")
  end.

(** [v[:n]]; on a [dict] Python 3.12 and later report a [KeyError]. *)
Definition slice_to (n : nat) (v : json) : Result json :=
  match v with
  | JStr s => Ret (JStr (PyStr.take n s))
  | JList l => Ret (JList (take n l))
  | JDict _ => Raise (OtherException TypeError "unhashable type: 'slice'")
  | _ => Raise (OtherException TypeError "object is not subscriptable")
  end.

(** [str(v)], as an f-string formats [v]; [repr_container] is the text
    of a list or a dict. *)
Definition str (repr_container : json → string) (v : json) : string :=
  match v with
  | JNull => "None"
  | JBool true => "True"
  | JBool false => "False"
  | JInt n => pretty n
  | JStr s => s
  | _ => repr_container v
  end.

End Py.

(** ** Console messages

    One constructor per [print] of the script, carrying the values the
    message is formatted from. *)

Inductive Msg :=
| MsgHeader
| MsgSection (title : string)
| MsgAnalyzing
| MsgSingleVideo
| MsgFound (n : Z)
| MsgPreview
| MsgPreviewItem (i : Z) (title : string)
| MsgMoreVideos (n : Z)
| MsgListError (e : Exn)
| MsgFileTooLarge (name : string) (size_mb : Q) (max_size_mb : Z)
| MsgFileSizeOK (size_mb : Q)
| MsgDownloading
| MsgUrl (url : string)
| MsgDownloaded (name : string)
| MsgNoNewFile
| MsgDownloadFailed (e : Exn)
| MsgTranscribing (name : string)
| MsgSending
| MsgComplete (word_count : Z)
| MsgQuota
| MsgBilling
| MsgRateLimit (wait_time attempt max_retries : Z)
| MsgMaxRetriesRateLimit
| MsgTranscriptionError (msg : string)
| MsgRetrying (attempt max_retries : Z)
| MsgMaxRetries
| MsgFolder (kind dir : string)
| MsgClientReady
| MsgClientFailed
| MsgProcessingVideo (i n : Z)
| MsgPossiblyDownloaded
| MsgDownloadSummary (n : Z)
| MsgProcessingAudio (i n : Z) (name : string)
| MsgTranscriptExists (name : string)
| MsgSaved (name : string)
| MsgWaiting (delay : Z)
| MsgSkippedTranscription (name : string)
| MsgTotal (n : Z)
| MsgTranscribed (n : Z)
| MsgSkipped (n : Z)
| MsgFailed (n : Z)
| MsgSavedTo (dir : string)
| MsgAllDone.

(** The three [time.sleep] of the script. *)
Inductive SleepSite :=
| RateLimitBackoff   (* transcribe_audio, after a rate-limit error *)
| RetryBackoff       (* transcribe_audio, after any other error *)
| Pacing.            (* main, after a saved transcript *)

Inductive Cmd :=
| YtDlpFlatPlaylist (url : string)
| YtDlpExtractAudio (url : string).

Inductive Event :=
| EvPrint (m : Msg)
| EvRun (cmd : Cmd)                        (* subprocess.run *)
| EvApiCall (file : string)                (* client.audio.transcriptions.create *)
| EvSleep (site : SleepSite) (secs : Z)    (* time.sleep *)
| EvWrite (file : string) (text : string)  (* Path.write_text *)
| EvMkdir (path : string).                 (* Path.mkdir *)

Definition is_api_call (e : Event) : bool :=
  match e with EvApiCall _ => true | _ => false end.

Definition is_sleep (e : Event) : bool :=
  match e with EvSleep _ _ => true | _ => false end.


Definition is_write (e : Event) : bool :=
  match e with EvWrite _ _ => true | _ => false end.

(** ** The world and the collaborators *)

(** The files of the two directories the script works in, which are taken
    to be two directories: an output directory that is [downloads/]
    itself is outside the model, and no statement of this file is about
    it.  That the directories exist is not part of the world: [main]
    makes them, and the trace says so. *)
Record World := mkWorld {
  downloads : gmap string Z;         (* downloads/: file name -> st_size *)
  transcripts : gmap string string;  (* output directory: file name -> text *)
  runs : nat;                        (* downloads run so far *)
  requests : nat                     (* transcription requests sent so far *)
}.

(** What the speech-to-text service answers to a request. *)
Inductive api_result :=
| ApiText (text : string)
| ApiRateLimit (msg : string)   (* raised as RateLimitError *)
| ApiFailure (msg : string).    (* raised as any other Exception *)

Record Env := mkEnv {
  (* yt-dlp --flat-playlist -J url: exit status and standard output *)
  yt_dlp_flat_playlist : string → Z * string;
  (* json.loads; None is a JSONDecodeError *)
  json_loads : string → option json;
  (* the n-th download of the run: exit status and the download directory
     it leaves behind *)
  yt_dlp_extract_audio : nat → string → gmap string Z → Z * gmap string Z;
  (* whether OpenAI(api_key=...) returns a client *)
  openai_client : string → bool;
  (* the answer to the n-th request of the run, for the file submitted *)
  whisper : nat → string → api_result;
  (* which element set.pop() takes, as an index in the set's elements *)
  set_pop_index : gset string → nat;
  (* str() of a list or a dict *)
  repr_container : json → string;
  (* Path(path).mkdir(exist_ok=True): None when it returns, with the
     directory there, or the OSError it raises (a missing parent, a file
     of that name, no permission) *)
  path_mkdir : string → option (ExnKind * string);
  (* transcript_file.write_text(text, encoding="utf-8") of a file and a
     text into an output directory with the given files: None when it
     returns, or what it raises (an OSError for want of permission or of
     space, a UnicodeEncodeError) *)
  write_text_error : gmap string string → string → string →
                     option (ExnKind * string)
}.

(** ** The monad of the script: state, trace and exceptions *)

Definition M (A : Type) : Type := World → Result A * World * list Event.

Definition run {A} (m : M A) (w : World) : Result A * World * list Event := m w.

Definition result_of {A} (r : Result A * World * list Event) : Result A := r.1.1.
Definition world_of {A} (r : Result A * World * list Event) : World := r.1.2.
Definition events_of {A} (r : Result A * World * list Event) : list Event := r.2.

Global Instance M_ret : MRet M := λ A a w, (Ret a, w, []).

Global Instance M_bind : MBind M := λ A B f m w,
  match m w with
  | (Ret a, w1, t1) =>
      match f a w1 with (r, w2, t2) => (r, w2, t1 ++ t2) end
  | (Raise e, w1, t1) => (Raise e, w1, t1)
  | (SysExit c, w1, t1) => (SysExit c, w1, t1)
  end.

Global Instance Result_ret : MRet Result := λ A a, Ret a.

Global Instance Result_bind : MBind Result := λ A B f r,
  match r with
  | Ret a => f a
  | Raise e => Raise e
  | SysExit c => SysExit c
  end.

Definition raise {A} (e : Exn) : M A := λ w, (Raise e, w, []).
Definition sys_exit {A} (code : Z) : M A := λ w, (SysExit code, w, []).
Definition emit (e : Event) : M unit := λ w, (Ret (), w, [e]).
Definition get_world : M World := λ w, (Ret w, w, []).
Definition put_world (w' : World) : M unit := λ _, (Ret (), w', []).

Definition lift {A} (r : Result A) : M A := λ w, (r, w, []).

(** [try: body  except ...: handler]; [handler] says which exceptions it
    takes: on [None] the exception goes on. *)
Definition try_except {A} (body : M A) (handler : Exn → option (M A)) : M A :=
  λ w,
    match body w with
    | (Raise e, w1, t1) =>
        match handler e with
        | Some h => match h w1 with (r, w2, t2) => (r, w2, t1 ++ t2) end
        | None => (Raise e, w1, t1)
        end
    | r => r
    end.

Definition print (m : Msg) : M unit := emit (EvPrint m).


Definition sleep (site : SleepSite) (secs : Z) : M unit :=
  if secs <? 0
  then raise (OtherException ValueError "sleep length must be non-negative")
  else emit (EvSleep site secs).

(** * The script *)

Record Args := mkArgs {
  url : string;      (* --url *)
  api_key : string;  (* --api-key *)
  output : string;   (* --output, default "transcriptions" *)
  delay : Z          (* --delay, default 5 *)
}.

(** The two counters of the transcription loop of [main]. *)
Record Counters := mkCounters {
  transcribed_count : Z;
  skipped_count : Z
}.

Definition default_max_size_mb : Z := 25.
Definition default_max_retries : Z := 3.

Section Script.

Variable env : Env.

(** *** Primitive operations on the world *)

(** [set(output_path.glob("*.mp3"))] *)
Definition glob_mp3 : M (gset string) :=
  w ← get_world;
  mret (filter (λ name, PyPath.is_mp3 name) (dom (downloads w))).

(** [file_path.stat().st_size] *)
Definition stat_size (file_path : string) : M Z :=
  w ← get_world;
  match downloads w !! file_path with
  | Some size => mret size
  | None => raise (OtherException FileNotFoundError (no_such_file file_path))
  end.

(** [open(file_path, "rb")] *)
Definition open_rb (file_path : string) : M unit :=
  w ← get_world;
  match downloads w !! file_path with
  | Some _ => mret ()
  | None => raise (OtherException FileNotFoundError (no_such_file file_path))
  end.

(** [transcript_file.exists()] *)
Definition transcript_exists (transcript_file : string) : M bool :=
  w ← get_world;
  mret (bool_decide (is_Some (transcripts w !! transcript_file))).

(** [transcript_file.write_text(text, encoding="utf-8")]; a write that
    raises ends the run, and what it leaves of the file is not recorded. *)
Definition write_text (transcript_file text : string) : M unit :=
  w ← get_world;
  match write_text_error env (transcripts w) transcript_file text with
  | Some (kind, msg) => raise (OtherException kind msg)
  | None =>
      put_world (mkWorld (downloads w) (<[transcript_file := text]> (transcripts w))
                         (runs w) (requests w));;
      emit (EvWrite transcript_file text)
  end.

(** [Path(path).mkdir(exist_ok=True)] *)
Definition mkdir (path : string) : M unit :=
  emit (EvMkdir path);;
  match path_mkdir env path with
  | None => mret ()
  | Some (kind, msg) => raise (OtherException kind msg)
  end.

(** [subprocess.run(["yt-dlp", "--flat-playlist", "-J", url], check=True)] *)
Definition run_flat_playlist (url : string) : M string :=
  emit (EvRun (YtDlpFlatPlaylist url));;
  let '(code, stdout) := yt_dlp_flat_playlist env url in
  if code =? 0 then mret stdout else raise (CalledProcessError code).

(** [subprocess.run(cmd, check=True)] for the download command *)
Definition run_extract_audio (url : string) : M unit :=
  emit (EvRun (YtDlpExtractAudio url));;
  w ← get_world;
  let '(code, dir) := yt_dlp_extract_audio env (runs w) url (downloads w) in
  put_world (mkWorld dir (transcripts w) (S (runs w)) (requests w));;
  if code =? 0 then mret () else raise (CalledProcessError code).

(** [new_files.pop()] *)
Definition set_pop (s : gset string) : M string :=
  let l := elements s in
  match l !! (set_pop_index env s `mod` length l)%nat with
  | Some x => mret x
  | None => raise (OtherException KeyError "pop from an empty set")
  end.

(** [client.audio.transcriptions.create(model="whisper-1", file=audio_file)]
    followed by [.text] *)
Definition transcriptions_create (file_path : string) : M string :=
  w ← get_world;
  put_world (mkWorld (downloads w) (transcripts w) (runs w) (S (requests w)));;
  emit (EvApiCall file_path);;
  match whisper env (requests w) file_path with
  | ApiText text => mret text
  | ApiRateLimit msg => raise (RateLimitError msg)
  | ApiFailure msg => raise (OtherException APIError msg)
  end.

(** *** [get_video_list] *)

Definition watch_url (id : json) : string :=
  "https://www.youtube.com/watch?v=" +:+ Py.str (repr_container env) id.

(** The preview loop over [enumerate(entries[:3])]. *)
Fixpoint preview (i : Z) (entries : list json) : M unit :=
  match entries with
  | [] => mret ()
  | entry :: rest =>
      found ← lift (Py.get entry "title" (JStr "Unknown Title"));
      title ← lift (Py.slice_to 50 found);
      print (MsgPreviewItem (i + 1) (Py.str (repr_container env) title));;
      preview (i + 1) rest
  end.

Definition get_video_list (url : string) : M (list string) :=
  print (MsgSection "GETTING VIDEO LIST");;
  print MsgAnalyzing;;
  try_except
    (stdout ← run_flat_playlist url;
     data ← match json_loads env stdout with
            | Some data => mret data
            | None => raise (OtherException JSONDecodeError stdout)
            end;
     entries ← lift (Py.get data "entries" (JList []));
     single ← (if Py.truthy entries then mret false
               else id ← lift (Py.get data "id" JNull); mret (Py.truthy id));
     if single : bool then
       print MsgSingleVideo;;
       mret [url]
     else
       items ← lift (Py.iter entries);
       video_urls ← lift (mapM (λ entry, id ← Py.getitem entry "id";
                                         mret (watch_url id)) items);
       let n := Z.of_nat (length video_urls) in
       print (MsgFound n);;
       (if 1 <? n then
          print MsgPreview;;
          first ← lift (Py.slice_to 3 entries);
          shown ← lift (Py.iter first);
          preview 0 shown;;
          len ← lift (Py.len entries);
          if 3 <? len then print (MsgMoreVideos (len - 3)) else mret ()
        else mret ());;
       mret video_urls)
    (λ e, match e with
          | CalledProcessError _ => Some (print (MsgListError e);; sys_exit 1)
          | _ => None
          end).

(** *** [check_file_size]

    [size_mb] is the quotient of two integers; Python rounds it to a
    float, exactly so for every size below 2^53 bytes since the divisor
    is a power of two.  The quotient is kept exact here: against the
    ceiling of 25 MB that the script uses, the comparison comes out the
    same for every size, and a statement on another ceiling is for sizes
    below 2^53 bytes. *)

Definition check_file_size (file_path : string) (max_size_mb : Z) : M bool :=
  st_size ← stat_size file_path;
  let size_mb := (inject_Z st_size / inject_Z (1024 * 1024))%Q in
  if negb (Qle_bool size_mb (inject_Z max_size_mb)) then
    print (MsgFileTooLarge file_path size_mb max_size_mb);;
    mret false
  else
    print (MsgFileSizeOK size_mb);;
    mret true.

(** *** [download_audio_if_needed] *)

Definition download_audio_if_needed (url : string) : M (option string) :=
  before_files ← glob_mp3;
  print MsgDownloading;;
  print (MsgUrl url);;
  try_except
    (run_extract_audio url;;
     after_files ← glob_mp3;
     let new_files := after_files ∖ before_files in
     if bool_decide (new_files ≠ ∅) then
       new_file ← set_pop new_files;
       print (MsgDownloaded new_file);;
       check_file_size new_file default_max_size_mb;;
       mret (Some new_file)
     else
       print MsgNoNewFile;;
       mret None)
    (λ e, match e with
          | CalledProcessError _ =>
              Some (print (MsgDownloadFailed e);; mret None)
          | _ => None
          end).

(** *** [transcribe_audio]

    [todo] counts the iterations of [for attempt in range(max_retries)]
    that are left; [continue] is the recursive call. *)

Definition is_quota_message (msg : string) : bool :=
  PyStr.contains "insufficient_quota" (PyStr.lower msg).

Fixpoint transcribe_attempts (file_path : string) (max_retries : Z)
    (todo : nat) (attempt : Z) : M (option string) :=
  match todo with
  | O => mret None
  | S todo' =>
      try_except
        (open_rb file_path;;
         print MsgSending;;
         text ← transcriptions_create file_path;
         let word_count := Z.of_nat (length (PyStr.split text)) in
         print (MsgComplete word_count);;
         mret (Some text))
        (λ e, Some
           match e with
           | RateLimitError _ =>
               if is_quota_message (exn_str e) then
                 print MsgQuota;;
                 print MsgBilling;;
                 mret None
               else
                 let wait_time := (attempt + 1) * 60 in
                 print (MsgRateLimit wait_time (attempt + 1) max_retries);;
                 if attempt <? max_retries - 1 then
                   sleep RateLimitBackoff wait_time;;
                   transcribe_attempts file_path max_retries todo' (attempt + 1)
                 else
                   print MsgMaxRetriesRateLimit;;
                   mret None
           | _ =>
               print (MsgTranscriptionError (exn_str e));;
               if attempt <? max_retries - 1 then
                 print (MsgRetrying (attempt + 2) max_retries);;
                 sleep RetryBackoff 5;;
                 transcribe_attempts file_path max_retries todo' (attempt + 1)
               else
                 print MsgMaxRetries;;
                 mret None
           end)
  end.

Definition transcribe_audio (file_path : string) (max_retries : Z)
  : M (option string) :=
  print (MsgTranscribing file_path);;
  transcribe_attempts file_path max_retries (Z.to_nat max_retries) 0.

(** *** [main]: the download phase *)

(** The body of [for i, url in enumerate(video_urls, 1)]. *)
Definition download_step (n : Z) (downloaded_files : list string)
    (i : Z) (url : string) : M (list string) :=
  print (MsgProcessingVideo i n);;
  before_files ← glob_mp3;
  mp3_file ← download_audio_if_needed url;
  match mp3_file with
  | Some file =>
      mret (downloaded_files ++ [file])
  | None =>
      after_files ← glob_mp3;
      (if bool_decide (before_files = after_files)
       then print MsgPossiblyDownloaded else mret ());;
      mret downloaded_files
  end.

Fixpoint download_loop (n : Z) (downloaded_files : list string)
    (i : Z) (video_urls : list string) : M (list string) :=
  match video_urls with
  | [] => mret downloaded_files
  | url :: rest =>
      downloaded_files' ← download_step n downloaded_files i url;
      download_loop n downloaded_files' (i + 1) rest
  end.

(** [main] up to the download summary, from the arguments that
    [parser.parse_args()] returned. *)
Definition download_phase (args : Args) : M unit :=
  print MsgHeader;;
  mkdir "downloads";;
  mkdir (output args);;
  print (MsgFolder "Downloads" "downloads");;
  print (MsgFolder "Transcripts" (output args));;
  (if openai_client env (api_key args)
   then print MsgClientReady
   else print MsgClientFailed;; sys_exit 1);;
  video_urls ← get_video_list (url args);
  print (MsgSection "DOWNLOADING AUDIO FILES");;
  downloaded_files ←
    download_loop (Z.of_nat (length video_urls)) [] 1 video_urls;
  print (MsgDownloadSummary (Z.of_nat (length downloaded_files))).

(** *** [main]: the transcription phase *)

(** [sorted(downloads_path.glob("*.mp3"))] *)
Definition sorted_mp3 : M (list string) :=
  files ← glob_mp3;
  mret (merge_sort String.le (elements files)).

(** [if text:] on what [transcribe_audio] returned *)
Definition text_truthy (text : option string) : bool :=
  match text with
  | Some t => negb (String.eqb t "")
  | None => false
  end.

Definition transcript_name (mp3_file : string) : string :=
  PyPath.stem mp3_file +:+ ".txt".

(** The body of [for i, mp3_file in enumerate(all_mp3_files, 1)];
    [total] is [len(all_mp3_files)]. *)
Definition process_audio (delay total : Z) (c : Counters)
    (i : Z) (mp3_file : string) : M Counters :=
  print (MsgProcessingAudio i total mp3_file);;
  let transcript_file := transcript_name mp3_file in
  present ← transcript_exists transcript_file;
  if present : bool then
    print (MsgTranscriptExists transcript_file);;
    mret (mkCounters (transcribed_count c) (skipped_count c + 1))
  else
    text ← transcribe_audio mp3_file default_max_retries;
    if text_truthy text then
      write_text transcript_file (default "" text);;
      print (MsgSaved transcript_file);;
      let c' := mkCounters (transcribed_count c + 1) (skipped_count c) in
      (if i <? total then
         print (MsgWaiting delay);;
         sleep Pacing delay
       else mret ());;
      mret c'
    else
      print (MsgSkippedTranscription mp3_file);;
      mret (mkCounters (transcribed_count c) (skipped_count c + 1)).

Fixpoint transcription_loop (delay total : Z) (c : Counters)
    (i : Z) (all_mp3_files : list string) : M Counters :=
  match all_mp3_files with
  | [] => mret c
  | mp3_file :: rest =>
      c' ← process_audio delay total c i mp3_file;
      transcription_loop delay total c' (i + 1) rest
  end.

(** The final summary. *)
Definition print_summary (output : string) (total : Z) (c : Counters)
  : M unit :=
  print (MsgSection "COMPLETION SUMMARY");;
  print (MsgTotal total);;
  print (MsgTranscribed (transcribed_count c));;
  print (MsgSkipped (skipped_count c));;
  print (MsgFailed (total - transcribed_count c - skipped_count c));;
  print (MsgSavedTo output);;
  print MsgAllDone.

Definition transcription_phase (args : Args) : M unit :=
  print (MsgSection "TRANSCRIBING AUDIO FILES");;
  all_mp3_files ← sorted_mp3;
  let total := Z.of_nat (length all_mp3_files) in
  c ← transcription_loop (delay args) total (mkCounters 0 0) 1 all_mp3_files;
  print_summary (output args) total c.

(** *** [main] *)

Definition main (args : Args) : M unit :=
  download_phase args;;
  transcription_phase args.

End Script.

(** * Vocabulary of the statements *)

(** The world after one more transcription request. *)
Definition bump_requests (w : World) : World :=
  mkWorld (downloads w) (transcripts w) (runs w) (S (requests w)).

(** The world after [n] more transcription requests. *)
Definition add_requests (n : nat) (w : World) : World :=
  mkWorld (downloads w) (transcripts w) (runs w) (n + requests w).

(** The world after a transcript has been written. *)
Definition with_transcript (name text : string) (w : World) : World :=
  mkWorld (downloads w) (<[name := text]> (transcripts w)) (runs w) (requests w).

(** [evs] happened before the run [r]. *)
Definition after {A} (evs : list Event) (r : Result A * World * list Event)
  : Result A * World * list Event :=
  (result_of r, world_of r, evs ++ events_of r).

(** The events [transcribe_audio file_path] can emit: its own messages,
    requests for [file_path] and back-off sleeps. *)
Definition transcriber_event (file_path : string) (e : Event) : bool :=
  match e with
  | EvPrint (MsgTranscribing _ | MsgSending | MsgComplete _ | MsgQuota
            | MsgBilling | MsgRateLimit _ _ _ | MsgMaxRetriesRateLimit
            | MsgTranscriptionError _ | MsgRetrying _ _ | MsgMaxRetries) => true
  | EvApiCall file => String.eqb file file_path
  | EvSleep (RateLimitBackoff | RetryBackoff) _ => true
  | _ => false
  end.

(** A failure that the retry loop takes as transient: any error but a
    rate-limit error that reports insufficient quota. *)
Definition transient (r : api_result) : bool :=
  match r with
  | ApiText _ => false
  | ApiRateLimit msg => negb (is_quota_message msg)
  | ApiFailure _ => true
  end.

(** Quota exhaustion: a rate-limit error whose text names
    [insufficient_quota]. *)
Definition quota_exhausted (r : api_result) : bool :=
  match r with
  | ApiRateLimit msg => is_quota_message msg
  | _ => false
  end.

Definition count_events (p : Event → bool) (evs : list Event) : nat :=
  length (filter (λ e, p e) evs).

(** The counters after an item that was saved, and after any other. *)
Definition count_transcribed (c : Counters) : Counters :=
  mkCounters (transcribed_count c + 1) (skipped_count c).
Definition count_skipped (c : Counters) : Counters :=
  mkCounters (transcribed_count c) (skipped_count c + 1).

(** Every transcript can be written. *)
Definition writes_succeed (env : Env) : Prop :=
  ∀ dir file text, write_text_error env dir file text = None.

(** What the transcription loop does with one audio file. *)
Inductive Outcome :=
| AlreadyDone    (* the transcript exists: no request *)
| Transcribed    (* the transcriber returned a text, to be saved *)
| Failed.        (* the transcriber returned nothing *)

Global Instance Outcome_eq_dec : EqDecision Outcome.
Proof. solve_decision. Defined.

(** The text a run of [transcribe_audio] returned. *)
Definition returned_text (r : Result (option string) * World * list Event)
  : option string :=
  match result_of r with
  | Ret text => text
  | _ => None
  end.

(** The outcome of [mp3_file] when the loop reaches it in the world [w]. *)
Definition item_outcome (env : Env) (mp3_file : string) (w : World) : Outcome :=
  if bool_decide (is_Some (transcripts w !! transcript_name mp3_file))
  then AlreadyDone
  else if text_truthy
            (returned_text (run (transcribe_audio env mp3_file default_max_retries) w))
       then Transcribed
       else Failed.



(** The audio files the transcription phase goes through. *)
Definition mp3_files (w : World) : list string :=
  merge_sort String.le
    (elements (filter (λ name, PyPath.is_mp3 name) (dom (downloads w)))).

(** The lines of the completion summary. *)
Definition summary_events (output : string) (total transcribed skipped failed : Z)
  : list Event :=
  [EvPrint (MsgSection "COMPLETION SUMMARY");
   EvPrint (MsgTotal total);
   EvPrint (MsgTranscribed transcribed);
   EvPrint (MsgSkipped skipped);
   EvPrint (MsgFailed failed);
   EvPrint (MsgSavedTo output);
   EvPrint MsgAllDone].

(** The events of one iteration of the transcription loop that are not
    the transcriber's. *)
Definition loop_event (e : Event) : bool :=
  match e with
  | EvPrint (MsgProcessingAudio _ _ _ | MsgTranscriptExists _ | MsgSaved _
            | MsgWaiting _ | MsgSkippedTranscription _) => true
  | EvSleep Pacing _ => true
  | EvWrite _ _ => true
  | _ => false
  end.


(** A request for [file]. *)
Definition is_api_call_for (file : string) (e : Event) : bool :=
  match e with
  | EvApiCall file' => String.eqb file' file
  | _ => false
  end.

(** The [Failed] line of the summary. *)
Definition is_failed_line (e : Event) : bool :=
  match e with
  | EvPrint (MsgFailed _) => true
  | _ => false
  end.


(** [m] emits no event of the kind [p]. *)
Definition quiet (p : Event → bool) {A} (m : M A) : Prop :=
  ∀ w, filter (λ e, p e) (events_of (run m w)) = [].

(** A rate-limit error that is not a quota error; any other error. *)
Definition rate_limited (r : api_result) : bool :=
  match r with
  | ApiRateLimit msg => negb (is_quota_message msg)
  | _ => false
  end.
Definition other_failure (r : api_result) : bool :=
  match r with
  | ApiFailure _ => true
  | _ => false
  end.

(** ** Metadata of [yt-dlp]

    What [data.get("entries", [])] and [data.get("id")] read in the
    metadata [d]. *)
Definition entries_of (d : list (string * json)) : json :=
  default (JList []) (Py.assoc "entries" d).
Definition id_of (d : list (string * json)) : json :=
  default JNull (Py.assoc "id" d).

(** A playlist entry whose identifier is [id], a JSON value of whatever
    type. *)
Definition entry_id (entry id : json) : Prop :=
  ∃ d, entry = JDict d ∧ Py.assoc "id" d = Some id.

(** An entry that the preview can show: its title, when it has one, is
    a string or a list, which [title[:50]] can slice. *)
Definition previewable (entry : json) : Prop :=
  ∃ d, entry = JDict d ∧
       match default (JStr "Unknown Title") (Py.assoc "title" d) with
       | JStr _ | JList _ => True
       | _ => False
       end.

(** A playlist entry that has an identifier, of whatever kind. *)
Definition has_id (entry : json) : Prop :=
  ∃ d id, entry = JDict d ∧ Py.assoc "id" d = Some id.

(** A sub-process run. *)
Definition is_run (e : Event) : bool :=
  match e with EvRun _ => true | _ => false end.

(** The world after the download of [url]: the download directory is what
    [yt-dlp] left, and one more download was run. *)
Definition after_download (env : Env) (url : string) (w : World) : World :=
  mkWorld (yt_dlp_extract_audio env (runs w) url (downloads w)).2
          (transcripts w) (S (runs w)) (requests w).

(** The world after the downloads of [urls], one after the other. *)
Definition after_downloads (env : Env) (urls : list string) (w : World) : World :=
  foldl (λ w url, after_download env url w) w urls.

(** A line on the console. *)
Definition is_print (e : Event) : bool :=
  match e with EvPrint _ => true | _ => false end.

(** [m] leaves the part [f] of the world as it found it and emits no
    event of the kind [p]. *)
Definition confined {A X} (f : World → X) (p : Event → bool) (m : M A) : Prop :=
  ∀ w, f (world_of (run m w)) = f w ∧
       filter (λ e, p e) (events_of (run m w)) = [].

(** A result that is neither [sys.exit] nor a [CalledProcessError]. *)
Definition tame {A} (r : Result A) : Prop :=
  match r with
  | Ret _ => True
  | Raise (CalledProcessError _) => False
  | Raise _ => True
  | SysExit _ => False
  end.

Definition stays_tame {A} (m : M A) : Prop :=
  ∀ w, tame (result_of (run m w)).

(** [m] does not leave through [sys.exit]. *)
Definition never_exits {A} (m : M A) : Prop :=
  ∀ w code, result_of (run m w) ≠ SysExit code.

(** What only the transcription phase does: requests, writes, sleeps. *)
Definition is_transcription_effect (e : Event) : bool :=
  is_api_call e || is_write e || is_sleep e.

(** ** Sample inputs *)

(** A run environment around a given speech-to-text service: the
    playlist has two entries and every download leaves one new file. *)
Definition sample_env (service : nat → string → api_result) : Env :=
  mkEnv
    (λ _, (0, "playlist.json"%string))
    (λ _, Some (JDict [("id"%string, JStr "PL1");
                       ("entries"%string,
                        JList [JDict [("id"%string, JStr "a1"); ("title"%string, JStr "Intro")];
                               JDict [("id"%string, JStr "b2"); ("title"%string, JStr "Talk")]])]))
    (λ n _ dir, (0, <[("video" +:+ pretty n +:+ ".mp3")%string := 30000000]> dir))
    (λ _, true)
    service
    (λ _, 0%nat)
    (λ _, "[...]"%string)
    (λ _, None)
    (λ _ _ _, None).

(** A service that is down, one whose quota is used up, one that works. *)
Definition service_down : nat → string → api_result :=
  λ _ _, ApiFailure "Connection error.".
Definition service_no_quota : nat → string → api_result :=
  λ _ _, ApiRateLimit "Error code: 429 - You exceeded your current quota (insufficient_quota)".
Definition service_up : nat → string → api_result :=
  λ _ file, ApiText ("transcript of " +:+ file).
(** A service that works for [intro.mp3] only. *)
Definition service_partial : nat → string → api_result :=
  λ _ file, if String.eqb file "intro.mp3" then ApiText "welcome to the course"
            else ApiFailure "Connection error.".

(** A service that is rate limited all the time, one that fails once and
    then works, one that fails once and then reports that the quota is
    used up. *)
Definition service_rate_limited : nat → string → api_result :=
  λ _ _, ApiRateLimit "Rate limit reached for requests".
Definition service_recovers : nat → string → api_result :=
  λ n file, if (n <? 1)%nat then ApiFailure "Connection error."
            else ApiText ("transcript of " +:+ file).
Definition service_runs_out : nat → string → api_result :=
  λ n _, if (n <? 1)%nat then ApiFailure "Connection error."
         else ApiRateLimit "Error code: 429 - insufficient_quota".

(** A service that returns an empty text. *)
Definition service_silent : nat → string → api_result :=
  λ _ _, ApiText "".

(** The environment of a run on a single video. *)
Definition single_video_env : Env :=
  mkEnv
    (λ _, (0, "video.json"%string))
    (λ _, Some (JDict [("id"%string, JStr "a1"); ("title"%string, JStr "Intro")]))
    (λ n _ dir, (0, <[("video" +:+ pretty n +:+ ".mp3")%string := 30000000]> dir))
    (λ _, true)
    service_up
    (λ _, 0%nat)
    (λ _, "[...]"%string)
    (λ _, None)
    (λ _ _ _, None).

(** Environments whose [yt-dlp] answers the listing with the standard
    output [stdout] and the exit status [code], parsed as [parsed]. *)
Definition listing_env (code : Z) (parsed : option json) : Env :=
  mkEnv
    (λ _, (code, "listing"%string))
    (λ _, parsed)
    (λ n _ dir, (0, <[("video" +:+ pretty n +:+ ".mp3")%string := 30000000]> dir))
    (λ _, true)
    service_up
    (λ _, 0%nat)
    (λ _, "[...]"%string)
    (λ _, None)
    (λ _ _ _, None).

(** Metadata of a playlist whose second entry has no identifier, and of
    one whose first entry has a title that is [null]. *)
Definition metadata_missing_id : list (string * json) :=
  [("entries"%string,
    JList [JDict [("id"%string, JStr "a1")]; JDict [("title"%string, JStr "Talk")]])].
Definition metadata_null_title : list (string * json) :=
  [("entries"%string,
    JList [JDict [("id"%string, JStr "a1"); ("title"%string, JNull)];
           JDict [("id"%string, JStr "b2"); ("title"%string, JStr "Talk")]])].

(** An environment whose downloads exit with [code] and leave the
    directory [dir] behind. *)
Definition download_env (code : Z) (dir : gmap string Z) : Env :=
  mkEnv
    (λ _, (0, "listing"%string))
    (λ _, Some (JDict [("id"%string, JStr "a1")]))
    (λ _ _ _, (code, dir))
    (λ _, true)
    service_up
    (λ _, 0%nat)
    (λ _, "[...]"%string)
    (λ _, None)
    (λ _ _ _, None).

(** An environment in which [OpenAI(api_key=...)] raises. *)
Definition no_client_env : Env :=
  mkEnv
    (λ _, (0, "listing"%string))
    (λ _, Some (JDict [("id"%string, JStr "a1")]))
    (λ n _ dir, (0, <[("video" +:+ pretty n +:+ ".mp3")%string := 30000000]> dir))
    (λ _, false)
    service_up
    (λ _, 0%nat)
    (λ _, "[...]"%string)
    (λ _, None)
    (λ _ _ _, None).

(** An environment in which the output directory cannot be made, for
    want of its parent. *)
Definition no_parent_env : Env :=
  mkEnv
    (λ _, (0, "listing"%string))
    (λ _, Some (JDict [("id"%string, JStr "a1")]))
    (λ n _ dir, (0, <[("video" +:+ pretty n +:+ ".mp3")%string := 30000000]> dir))
    (λ _, true)
    service_up
    (λ _, 0%nat)
    (λ _, "[...]"%string)
    (λ path, if String.eqb path "downloads" then None
             else Some (FileNotFoundError,
                        "[Errno 2] No such file or directory: '" +:+ path +:+ "'"))
    (λ _ _ _, None).

(** Two audio files; the second one may already have its transcript. *)
Definition two_files (transcripts : gmap string string) : World :=
  mkWorld {[ "intro.mp3"%string := 1000; "talk.mp3"%string := 2000 ]} transcripts 0 0.

Definition one_file : World :=
  mkWorld {[ "talk.mp3"%string := 2000 ]} ∅ 0 0.

Definition sample_args : Args :=
  mkArgs "https://www.youtube.com/playlist?list=PL1" "sk-test" "transcriptions" 5.

(** * Properties *)

(** ** The string helpers on samples *)

Example lower_quota :
  PyStr.lower "Error 429: Insufficient_Quota" = "error 429: insufficient_quota"%string.
Proof. reflexivity. Qed.

Example split_words :
  PyStr.split "  hello   brave new  world " =
  ["hello"; "brave"; "new"; "world"]%string.
Proof. reflexivity. Qed.

Example stem_mp3 : PyPath.stem "My_Talk.v2.mp3" = "My_Talk.v2"%string.
Proof. reflexivity. Qed.

Example stem_hidden : PyPath.stem ".mp3" = ".mp3"%string.
Proof. reflexivity. Qed.

(** ** Running the monad *)

Lemma bind_run {A B} (m : M A) (f : A → M B) (w : World) :
  (m ≫= f) w =
  match m w with
  | (Ret a, w1, t1) => after t1 (f a w1)
  | (Raise e, w1, t1) => (Raise e, w1, t1)
  | (SysExit c, w1, t1) => (SysExit c, w1, t1)
  end.
Proof.
  unfold mbind, M_bind, after, result_of, world_of, events_of.
  destruct (m w) as [[[a|e|c] w1] t1]; try reflexivity.
  destruct (f a w1) as [[r w2] t2]; reflexivity.
Qed.

Lemma after_triple {A} t1 (r : Result A) w t2 :
  after t1 (r, w, t2) = (r, w, t1 ++ t2).
Proof. reflexivity. Qed.

Lemma add_requests_bump n w :
  add_requests n (bump_requests w) = add_requests (S n) w.
Proof. unfold add_requests, bump_requests; cbn. f_equal. lia. Qed.

Lemma count_events_app p t1 t2 :
  count_events p (t1 ++ t2) = (count_events p t1 + count_events p t2)%nat.
Proof. unfold count_events. by rewrite filter_app, length_app. Qed.

(** Unfolds the combinators of the monad and reduces what has become
    a redex, leaving the primitive operations and the oracles alone. *)
Ltac run_monad :=
  unfold mbind, M_bind, mret, M_ret, print, emit, get_world, put_world,
    raise, sys_exit, lift, try_except, after, result_of, world_of, events_of;
  cbv beta iota zeta; cbn [fst snd app exn_str].

Ltac transcriber_events :=
  repeat first [ apply Forall_nil_2
               | apply Forall_cons_2; [cbn; rewrite ?String.eqb_refl; done|] ].

Ltac finish_returns :=
  split; [reflexivity|split; [lia|split; [reflexivity|transcriber_events]]].

Section TranscribeAudio.

Variable env : Env.
Variable file_path : string.
Variable max_retries : Z.

(** One iteration of the retry loop, case by case. *)
Lemma transcribe_attempts_step todo attempt w :
  0 ≤ attempt →
  transcribe_attempts env file_path max_retries (S todo) attempt w =
  match downloads w !! file_path with
  | None =>
      if attempt <? max_retries - 1 then
        after [EvPrint (MsgTranscriptionError (no_such_file file_path));
               EvPrint (MsgRetrying (attempt + 2) max_retries);
               EvSleep RetryBackoff 5]
          (transcribe_attempts env file_path max_retries todo (attempt + 1) w)
      else
        (Ret None, w, [EvPrint (MsgTranscriptionError (no_such_file file_path));
                       EvPrint MsgMaxRetries])
  | Some _ =>
      match whisper env (requests w) file_path with
      | ApiText text =>
          (Ret (Some text), bump_requests w,
           [EvPrint MsgSending; EvApiCall file_path;
            EvPrint (MsgComplete (Z.of_nat (length (PyStr.split text))))])
      | ApiRateLimit msg =>
          if is_quota_message msg then
            (Ret None, bump_requests w,
             [EvPrint MsgSending; EvApiCall file_path;
              EvPrint MsgQuota; EvPrint MsgBilling])
          else if attempt <? max_retries - 1 then
            after [EvPrint MsgSending; EvApiCall file_path;
                   EvPrint (MsgRateLimit ((attempt + 1) * 60) (attempt + 1)
                              max_retries);
                   EvSleep RateLimitBackoff ((attempt + 1) * 60)]
              (transcribe_attempts env file_path max_retries todo
                 (attempt + 1) (bump_requests w))
          else
            (Ret None, bump_requests w,
             [EvPrint MsgSending; EvApiCall file_path;
              EvPrint (MsgRateLimit ((attempt + 1) * 60) (attempt + 1)
                         max_retries);
              EvPrint MsgMaxRetriesRateLimit])
      | ApiFailure msg =>
          if attempt <? max_retries - 1 then
            after [EvPrint MsgSending; EvApiCall file_path;
                   EvPrint (MsgTranscriptionError msg);
                   EvPrint (MsgRetrying (attempt + 2) max_retries);
                   EvSleep RetryBackoff 5]
              (transcribe_attempts env file_path max_retries todo
                 (attempt + 1) (bump_requests w))
          else
            (Ret None, bump_requests w,
             [EvPrint MsgSending; EvApiCall file_path;
              EvPrint (MsgTranscriptionError msg); EvPrint MsgMaxRetries])
      end
  end.
Proof.
  intros Hatt.
  assert (Hwait : ((attempt + 1) * 60 <? 0) = false) by lia.
  cbn [transcribe_attempts]. unfold open_rb, transcriptions_create, sleep.
  rewrite Hwait. change (5 <? 0) with false. run_monad.
  destruct (downloads w !! file_path) as [size|]; run_monad.
  - destruct (whisper env (requests w) file_path) as [text|msg|msg];
      run_monad; [reflexivity| |].
    + destruct (is_quota_message msg); run_monad; [reflexivity|].
      destruct (attempt <? max_retries - 1); run_monad; [|reflexivity].
      unfold bump_requests.
      by destruct (transcribe_attempts _ _ _ _ _ _) as [[r w'] t].
    + destruct (attempt <? max_retries - 1); run_monad; [|reflexivity].
      unfold bump_requests.
      by destruct (transcribe_attempts _ _ _ _ _ _) as [[r w'] t].
  - destruct (attempt <? max_retries - 1); run_monad; [|reflexivity].
    unfold bump_requests.
      by destruct (transcribe_attempts _ _ _ _ _ _) as [[r w'] t].
Qed.

(** The loop always returns: every sleep it asks for has a length that
    is not negative.  It sends at most [todo] requests and touches
    nothing but the request counter. *)
Lemma transcribe_attempts_returns todo : ∀ attempt w,
  0 ≤ attempt →
  ∃ text n evs,
    transcribe_attempts env file_path max_retries todo attempt w =
      (Ret text, add_requests n w, evs) ∧
    (n ≤ todo)%nat ∧
    count_events is_api_call evs = n ∧
    Forall (λ e, transcriber_event file_path e) evs.
Proof.
  induction todo as [|todo IH]; intros attempt w Hatt.
  - exists None, 0%nat, []. destruct w. finish_returns.
  - assert (Hnext : 0 ≤ attempt + 1) by lia.
    rewrite transcribe_attempts_step by done.
    destruct (downloads w !! file_path) as [size|].
    + destruct (IH (attempt + 1) (bump_requests w) Hnext)
        as (text & n & evs & Hrun & Hn & Hcount & Hevs).
      destruct (whisper env (requests w) file_path) as [t|msg|msg].
      * exists (Some t), 1%nat. eexists. finish_returns.
      * destruct (is_quota_message msg).
        { exists None, 1%nat. eexists. finish_returns. }
        destruct (attempt <? max_retries - 1).
        { rewrite Hrun, after_triple, add_requests_bump.
          eexists _, _, _. split; [reflexivity|]. split; [lia|].
          rewrite count_events_app, Hcount, Forall_app.
          split; [reflexivity|]. split; [transcriber_events|done]. }
        exists None, 1%nat. eexists. finish_returns.
      * destruct (attempt <? max_retries - 1).
        { rewrite Hrun, after_triple, add_requests_bump.
          eexists _, _, _. split; [reflexivity|]. split; [lia|].
          rewrite count_events_app, Hcount, Forall_app.
          split; [reflexivity|]. split; [transcriber_events|done]. }
        exists None, 1%nat. eexists. finish_returns.
    + destruct (IH (attempt + 1) w Hnext)
        as (text & n & evs & Hrun & Hn & Hcount & Hevs).
      destruct (attempt <? max_retries - 1).
      * rewrite Hrun, after_triple.
        eexists _, _, _. split; [reflexivity|]. split; [lia|].
        rewrite count_events_app, Hcount, Forall_app.
        split; [reflexivity|]. split; [transcriber_events|done].
      * exists None, 0%nat. eexists. destruct w. finish_returns.
Qed.

(** Against a service that fails transiently at every request, the loop
    sends one request per iteration and gives up after the last one. *)
Lemma transcribe_attempts_transient todo : ∀ attempt w,
  0 ≤ attempt →
  attempt + Z.of_nat todo = max_retries →
  is_Some (downloads w !! file_path) →
  (∀ n, transient (whisper env n file_path) = true) →
  ∃ evs,
    transcribe_attempts env file_path max_retries todo attempt w =
      (Ret None, add_requests todo w, evs) ∧
    count_events is_api_call evs = todo ∧
    count_events is_sleep evs = pred todo.
Proof.
  induction todo as [|todo IH]; intros attempt w Hatt Hsum [size Hfile] Hfail.
  - exists []. destruct w. repeat split.
  - rewrite transcribe_attempts_step by done. rewrite Hfile.
    assert (Hnext : 0 ≤ attempt + 1) by lia.
    assert (Hsum' : attempt + 1 + Z.of_nat todo = max_retries) by lia.
    assert (Hfile' : is_Some (downloads (bump_requests w) !! file_path))
      by (by exists size).
    destruct (IH (attempt + 1) (bump_requests w) Hnext Hsum' Hfile' Hfail)
      as (evs & Hrun & Hcalls & Hsleeps).
    assert (Hlast : (attempt <? max_retries - 1) = negb (Nat.eqb todo 0)).
    { destruct todo; cbn [Nat.eqb negb]; lia. }
    specialize (Hfail (requests w)).
    destruct (whisper env (requests w) file_path) as [t|msg|msg];
      cbn in Hfail; [done| |].
    + apply negb_true_iff in Hfail. rewrite Hfail, Hlast.
      destruct todo as [|todo]; cbn [Nat.eqb negb].
      * eexists. repeat split.
      * rewrite Hrun, after_triple, add_requests_bump.
        eexists. split; [reflexivity|].
        rewrite !count_events_app, Hcalls, Hsleeps. split; reflexivity.
    + rewrite Hlast. destruct todo as [|todo]; cbn [Nat.eqb negb].
      * eexists. repeat split.
      * rewrite Hrun, after_triple, add_requests_bump.
        eexists. split; [reflexivity|].
        rewrite !count_events_app, Hcalls, Hsleeps. split; reflexivity.
Qed.

End TranscribeAudio.

(** ** The transcription loop *)

Section TranscriptionLoop.

Variable env : Env.
Variable delay total : Z.

(** One iteration of the loop, case by case. *)
Lemma process_audio_run c i mp3_file w :
  process_audio env delay total c i mp3_file w =
  let name := transcript_name mp3_file in
  let start := EvPrint (MsgProcessingAudio i total mp3_file) in
  if bool_decide (is_Some (transcripts w !! name)) then
    (Ret (count_skipped c), w, [start; EvPrint (MsgTranscriptExists name)])
  else
    let r := transcribe_audio env mp3_file default_max_retries w in
    match result_of r with
    | Ret text =>
        if text_truthy text then
          match write_text_error env (transcripts (world_of r)) name
                  (default "" text) with
          | Some (kind, msg) =>
              (Raise (OtherException kind msg), world_of r, start :: events_of r)
          | None =>
              let w' := with_transcript name (default "" text) (world_of r) in
              let saved := start :: events_of r ++
                           [EvWrite name (default "" text); EvPrint (MsgSaved name)] in
              if i <? total then
                if delay <? 0 then
                  (Raise (OtherException ValueError "sleep length must be non-negative"),
                   w', saved ++ [EvPrint (MsgWaiting delay)])
                else
                  (Ret (count_transcribed c), w',
                   saved ++ [EvPrint (MsgWaiting delay); EvSleep Pacing delay])
              else (Ret (count_transcribed c), w', saved)
          end
        else
          (Ret (count_skipped c), world_of r,
           start :: events_of r ++ [EvPrint (MsgSkippedTranscription mp3_file)])
    | Raise e => (Raise e, world_of r, start :: events_of r)
    | SysExit code => (SysExit code, world_of r, start :: events_of r)
    end.
Proof.
  unfold process_audio, transcript_exists, write_text, sleep. run_monad.
  destruct (bool_decide _); [reflexivity|].
  destruct (transcribe_audio env mp3_file default_max_retries w)
    as [[[text|e|code] w1] evs]; run_monad; try reflexivity.
  destruct (text_truthy text); run_monad; [|reflexivity].
  destruct (write_text_error env (transcripts w1) (transcript_name mp3_file)
              (default "" text)) as [[kind msg]|]; run_monad;
    [by rewrite app_nil_r|].
  unfold with_transcript.
  destruct (i <? total); run_monad.
  - destruct (delay <? 0); run_monad; by rewrite <- !app_assoc.
  - reflexivity.
Qed.

Lemma filter_none (p : Event → bool) evs :
  Forall (λ e, p e = false) evs → filter (λ e, p e) evs = [].
Proof.
  induction 1 as [|e evs He _ IH]; [done|].
  rewrite filter_cons_False by (rewrite He; exact id). exact IH.
Qed.

Lemma transcriber_events_silent (p : Event → bool) file_path evs :
  (∀ e, transcriber_event file_path e → p e = false) →
  Forall (λ e, transcriber_event file_path e) evs →
  filter (λ e, p e) evs = [].
Proof.
  intros Hp Hevs. apply filter_none. eapply Forall_impl; [exact Hevs|].
  intros e He. by apply Hp.
Qed.


Lemma transcriber_not_write file_path e :
  transcriber_event file_path e → is_write e = false.
Proof. destruct e as [m| | |[]| |]; try destruct m; cbn; done. Qed.

(** [transcribe_audio] always returns; it never sleeps the pacing delay
    and never writes a file. *)
Lemma transcribe_audio_run file_path max_retries w :
  ∃ text n evs,
    transcribe_audio env file_path max_retries w = (Ret text, add_requests n w, evs) ∧
    (n ≤ Z.to_nat max_retries)%nat ∧
    count_events is_api_call evs = n ∧
    Forall (λ e, transcriber_event file_path e) evs.
Proof.
  destruct (transcribe_attempts_returns env file_path max_retries
              (Z.to_nat max_retries) 0 w) as (text & n & evs & Hrun & Hn & Hcount & Hevs);
    [done|].
  exists text, n, (EvPrint (MsgTranscribing file_path) :: evs).
  split; [|repeat split; try done; by constructor].
  unfold transcribe_audio. rewrite bind_run. run_monad. by rewrite Hrun.
Qed.


(** An iteration emits nothing of a kind that neither the transcriber nor
    the loop body emits. *)
Lemma process_audio_silent (p : Event → bool) c i mp3_file w :
  (∀ e, transcriber_event mp3_file e → p e = false) →
  (∀ e, loop_event e → p e = false) →
  filter (λ e, p e) (events_of (run (process_audio env delay total c i mp3_file) w)) = [].
Proof.
  intros Htr Hloop. unfold run. rewrite process_audio_run. cbv zeta.
  assert (Hcons : ∀ e evs, loop_event e →
            filter (λ e, p e) (e :: evs) = filter (λ e, p e) evs).
  { intros e evs He. apply filter_cons_False. rewrite (Hloop e He). exact id. }
  destruct (bool_decide (is_Some _)).
  { run_monad. by rewrite !Hcons. }
  destruct (transcribe_audio_run mp3_file default_max_retries w)
    as (text & n & evs & Hrun & _ & _ & Hevs).
  pose proof (transcriber_events_silent p _ _ Htr Hevs) as Hquiet.
  rewrite Hrun. run_monad.
  destruct (text_truthy text);
    [destruct (write_text_error env _ _ _) as [[kind msg]|];
     [|destruct (i <? total); [destruct (delay <? 0)|]]|];
    run_monad; rewrite Hcons, ?filter_app, Hquiet by done; cbn [app];
    by rewrite ?Hcons.
Qed.

(** An iteration returns unless a transcript cannot be written or it is
    asked to sleep a negative delay; it counts the item once, as
    transcribed or as skipped. *)
Lemma process_audio_result c i mp3_file w :
  let r := run (process_audio env delay total c i mp3_file) w in
  match result_of r with
  | Ret c' =>
      downloads (world_of r) = downloads w ∧
      match item_outcome env mp3_file w with
      | Transcribed =>
          c' = count_transcribed c ∧
          count_events is_write (events_of r) = 1%nat
      | _ =>
          c' = count_skipped c ∧
          count_events is_write (events_of r) = 0%nat ∧
          transcripts (world_of r) = transcripts w
      end
  | Raise _ =>
      item_outcome env mp3_file w = Transcribed ∧
      (¬ writes_succeed env ∨ (delay < 0 ∧ i < total))
  | SysExit _ => False
  end.
Proof.
  unfold run, item_outcome, returned_text, count_events.
  rewrite process_audio_run. cbv zeta.
  destruct (bool_decide (is_Some _)); [by run_monad|].
  destruct (transcribe_audio_run mp3_file default_max_retries w)
    as (text & n & evs & Hrun & _ & _ & Hevs).
  pose proof (transcriber_events_silent is_write _ _
                (transcriber_not_write mp3_file) Hevs) as Hquiet.
  unfold run. rewrite Hrun. run_monad.
  destruct (text_truthy text);
    [destruct (write_text_error env _ _ _) as [[kind msg]|] eqn:Hwrite;
     [|destruct (i <? total) eqn:Hi; [destruct (delay <? 0) eqn:Hd|]]|];
    run_monad; rewrite ?filter_cons_False, ?filter_app, ?Hquiet
      by (cbn; exact id);
    try (split; [done|left; intros Hok; by rewrite Hok in Hwrite]);
    repeat split; try done; try lia; right; lia.
Qed.


(** Transcripts that exist are kept, whatever the iteration does. *)
Lemma process_audio_keeps_transcripts c i mp3_file w name text :
  transcripts w !! name = Some text →
  transcripts (world_of (run (process_audio env delay total c i mp3_file) w)) !! name
    = Some text.
Proof.
  intros Hname. unfold run. rewrite process_audio_run. cbv zeta.
  destruct (bool_decide (is_Some _)) eqn:Hex; [done|].
  apply bool_decide_eq_false in Hex.
  assert (Hne : transcript_name mp3_file ≠ name).
  { intros Heq. apply Hex. rewrite Heq. by exists text. }
  destruct (transcribe_audio_run mp3_file default_max_retries w)
    as (t & n & evs & Hrun & _).
  rewrite Hrun. run_monad.
  destruct (text_truthy t);
    [destruct (write_text_error env _ _ _) as [[kind msg]|];
     [|destruct (i <? total); [destruct (delay <? 0)|]]|];
    run_monad; unfold with_transcript, add_requests; cbn [transcripts];
    by rewrite ?lookup_insert_ne.
Qed.

(** An iteration sends no request for a file whose transcript exists. *)
Lemma process_audio_no_request_for c i mp3_file w file :
  is_Some (transcripts w !! transcript_name file) →
  filter (λ e, is_api_call_for file e)
    (events_of (run (process_audio env delay total c i mp3_file) w)) = [].
Proof.
  intros Hfile. destruct (String.eqb mp3_file file) eqn:Heq.
  - apply String.eqb_eq in Heq as ->.
    unfold run. rewrite process_audio_run. cbv zeta.
    by rewrite bool_decide_eq_true_2.
  - apply process_audio_silent.
    + intros e He. destruct e as [m|cmd|f|site secs|f t|path]; try done.
      cbn in *. apply Is_true_true, String.eqb_eq in He as ->. exact Heq.
    + intros e He. by destruct e.
Qed.

(** *** The loop, iteration after iteration *)

Lemma transcription_loop_cons c i mp3_file rest w :
  run (transcription_loop env delay total c i (mp3_file :: rest)) w =
  let r := run (process_audio env delay total c i mp3_file) w in
  match result_of r with
  | Ret c' =>
      after (events_of r)
        (run (transcription_loop env delay total c' (i + 1) rest) (world_of r))
  | Raise e => (Raise e, world_of r, events_of r)
  | SysExit code => (SysExit code, world_of r, events_of r)
  end.
Proof.
  unfold run. cbn [transcription_loop]. rewrite bind_run.
  by destruct (process_audio _ _ _ _ _ _ _) as [[[c'|e|code] w1] evs].
Qed.



Lemma loop_silent (p : Event → bool) files : ∀ c i w,
  (∀ file e, transcriber_event file e → p e = false) →
  (∀ e, loop_event e → p e = false) →
  filter (λ e, p e) (events_of (run (transcription_loop env delay total c i files) w)) = [].
Proof.
  induction files as [|mp3_file rest IH]; intros c i w Htr Hloop; [done|].
  rewrite transcription_loop_cons. cbv zeta.
  pose proof (process_audio_silent p c i mp3_file w (Htr mp3_file) Hloop) as Hitem.
  destruct (result_of _) as [c'|e|code]; [|done..].
  unfold after; cbn [events_of snd]. rewrite filter_app, Hitem. by apply IH.
Qed.

(** The loop counts every file once, and [transcribed_count] counts the
    transcripts written.  It stops early only on a transcript that cannot
    be written or on a negative delay. *)
Lemma loop_result files : ∀ c i w,
  let r := run (transcription_loop env delay total c i files) w in
  match result_of r with
  | Ret c' =>
      transcribed_count c' + skipped_count c' =
        transcribed_count c + skipped_count c + Z.of_nat (length files) ∧
      transcribed_count c' =
        transcribed_count c + Z.of_nat (count_events is_write (events_of r)) ∧
      downloads (world_of r) = downloads w
  | Raise _ => ¬ writes_succeed env ∨ delay < 0
  | SysExit _ => False
  end.
Proof.
  induction files as [|mp3_file rest IH]; intros c i w.
  { cbn. repeat split; lia. }
  cbv zeta. rewrite transcription_loop_cons. cbv zeta.
  pose proof (process_audio_result c i mp3_file w) as Hitem. cbv zeta in Hitem.
  destruct (result_of (run (process_audio _ _ _ _ _ _) _)) as [c'|e|code];
    [|cbn; destruct Hitem as [_ [?|[? _]]]; [by left|by right]|done].
  specialize (IH c' (i + 1) (world_of (run (process_audio env delay total c i mp3_file) w))).
  cbv zeta in IH. unfold after; cbn [result_of world_of events_of fst snd].
  destruct (result_of (run (transcription_loop _ _ _ _ _ _) _)) as [c''|e|code];
    [|done..].
  destruct IH as (Hsum & Hwrites & Hdown). destruct Hitem as (Hdown' & Hitem).
  rewrite count_events_app, Nat2Z.inj_add, Hdown, Hdown'. cbn [length].
  destruct (item_outcome env mp3_file w);
    [destruct Hitem as (-> & -> & _)|destruct Hitem as (-> & ->)
    |destruct Hitem as (-> & -> & _)];
    cbn [transcribed_count skipped_count count_transcribed count_skipped] in *;
    repeat split; lia.
Qed.


Lemma loop_keeps_transcripts files name text : ∀ c i w,
  transcripts w !! name = Some text →
  transcripts (world_of (run (transcription_loop env delay total c i files) w)) !! name
    = Some text.
Proof.
  induction files as [|mp3_file rest IH]; intros c i w Hname; [done|].
  rewrite transcription_loop_cons. cbv zeta.
  pose proof (process_audio_keeps_transcripts c i mp3_file w name text Hname) as Hitem.
  destruct (result_of _) as [c'|e|code]; [|done..].
  unfold after; cbn [world_of fst snd]. by apply IH.
Qed.

Lemma loop_no_request_for files file : ∀ c i w,
  is_Some (transcripts w !! transcript_name file) →
  filter (λ e, is_api_call_for file e)
    (events_of (run (transcription_loop env delay total c i files) w)) = [].
Proof.
  induction files as [|mp3_file rest IH]; intros c i w Hfile; [done|].
  rewrite transcription_loop_cons. cbv zeta.
  pose proof (process_audio_no_request_for c i mp3_file w file Hfile) as Hitem.
  destruct Hfile as [text Hfile].
  pose proof (process_audio_keeps_transcripts c i mp3_file w _ text Hfile) as Hkeep.
  destruct (result_of _) as [c'|e|code]; [|done..].
  unfold after; cbn [events_of snd]. rewrite filter_app, Hitem. apply IH.
  by exists text.
Qed.



End TranscriptionLoop.


(** The transcription phase: the loop over the sorted audio files, then
    the summary. *)
Lemma transcription_phase_run env args w :
  run (transcription_phase env args) w =
  let total := Z.of_nat (length (mp3_files w)) in
  let r := run (transcription_loop env (delay args) total (mkCounters 0 0) 1
                  (mp3_files w)) w in
  let start := EvPrint (MsgSection "TRANSCRIBING AUDIO FILES") in
  match result_of r with
  | Ret c =>
      (Ret (), world_of r,
       start :: events_of r ++
       summary_events (output args) total (transcribed_count c) (skipped_count c)
         (total - transcribed_count c - skipped_count c))
  | Raise e => (Raise e, world_of r, start :: events_of r)
  | SysExit code => (SysExit code, world_of r, start :: events_of r)
  end.
Proof.
  unfold run, transcription_phase, sorted_mp3, glob_mp3, print_summary.
  run_monad. fold (mp3_files w).
  by destruct (transcription_loop _ _ _ _ _ _ _) as [[[c|e|code] w1] evs].
Qed.


(** ** Events that a computation does not emit *)

Section Quiet.

Variable p : Event → bool.

Lemma quiet_ret {A} (a : A) : quiet p (mret a).
Proof. intros w. reflexivity. Qed.

Lemma quiet_raise {A} e : quiet p (raise e : M A).
Proof. intros w. reflexivity. Qed.

Lemma quiet_sys_exit {A} code : quiet p (sys_exit code : M A).
Proof. intros w. reflexivity. Qed.

Lemma quiet_lift {A} (r : Result A) : quiet p (lift r).
Proof. intros w. reflexivity. Qed.

Lemma quiet_get_world : quiet p get_world.
Proof. intros w. reflexivity. Qed.

Lemma quiet_put_world w' : quiet p (put_world w').
Proof. intros w. reflexivity. Qed.

Lemma quiet_emit e : p e = false → quiet p (emit e).
Proof.
  intros He w. unfold run, emit, events_of; cbn [snd].
  rewrite filter_cons_False by (rewrite He; exact id). reflexivity.
Qed.

Lemma quiet_print m : p (EvPrint m) = false → quiet p (print m).
Proof. apply quiet_emit. Qed.

Lemma quiet_bind {A B} (m : M A) (f : A → M B) :
  quiet p m → (∀ a, quiet p (f a)) → quiet p (m ≫= f).
Proof.
  intros Hm Hf w. unfold run. rewrite bind_run.
  specialize (Hm w). unfold run in Hm.
  destruct (m w) as [[[a|e|code] w1] t1]; [|done..].
  unfold after; cbn [events_of snd] in *. rewrite filter_app, Hm. apply Hf.
Qed.

Lemma quiet_try_except {A} (body : M A) handler :
  quiet p body →
  (∀ e h, handler e = Some h → quiet p h) →
  quiet p (try_except body handler).
Proof.
  intros Hbody Hhandler w. unfold run, try_except.
  specialize (Hbody w). unfold run in Hbody.
  destruct (body w) as [[[a|e|code] w1] t1]; [done| |done].
  destruct (handler e) as [h|] eqn:Hh; [|done].
  specialize (Hhandler e h Hh w1). unfold run in Hhandler.
  destruct (h w1) as [[r w2] t2]. cbn [events_of snd] in *.
  by rewrite filter_app, Hbody, Hhandler.
Qed.

End Quiet.

(** Goes through a computation built from the combinators of the monad,
    by cases on every test it makes. *)
Ltac quiet_step :=
  first
    [ apply quiet_ret | apply quiet_raise | apply quiet_sys_exit
    | apply quiet_lift | apply quiet_get_world | apply quiet_put_world
    | apply quiet_print; reflexivity
    | apply quiet_emit; reflexivity
    | apply quiet_bind; [|intros ?]
    | apply quiet_try_except; [|intros [] ? [= <-]]
    | match goal with
      | |- quiet _ (if ?b then _ else _) => destruct b
      | |- quiet _ (match ?x with _ => _ end) => destruct x
      end ].

Section DownloadPhase.

Variable env : Env.

Lemma preview_quiet entries : ∀ i, quiet is_failed_line (preview env i entries).
Proof. induction entries as [|entry rest IH]; intros i; cbn [preview]; repeat quiet_step. apply IH. Qed.

Lemma get_video_list_quiet url : quiet is_failed_line (get_video_list env url).
Proof.
  unfold get_video_list, run_flat_playlist.
  repeat first [apply preview_quiet | quiet_step].
Qed.

Lemma download_audio_if_needed_quiet url :
  quiet is_failed_line (download_audio_if_needed env url).
Proof.
  unfold download_audio_if_needed, glob_mp3, run_extract_audio, set_pop,
    check_file_size, stat_size.
  repeat quiet_step.
Qed.

Lemma download_loop_quiet n video_urls : ∀ downloaded_files i,
  quiet is_failed_line (download_loop env n downloaded_files i video_urls).
Proof.
  induction video_urls as [|url rest IH]; intros downloaded_files i;
    cbn [download_loop]; [apply quiet_ret|].
  apply quiet_bind; [|intros ?; apply IH].
  unfold download_step, glob_mp3.
  repeat first [apply download_audio_if_needed_quiet | quiet_step].
Qed.

Lemma download_phase_quiet args : quiet is_failed_line (download_phase env args).
Proof.
  unfold download_phase.
  repeat first [apply get_video_list_quiet | apply download_loop_quiet | quiet_step].
Qed.

End DownloadPhase.

(** * The properties of the specification *)

(** ** The transcriber *)

(** C2 — Retry ceiling.  When every request for the audio file fails with
    a transient error (any error but a rate-limit error that reports
    insufficient quota), [transcribe_audio] sends exactly [max_retries]
    requests, one per iteration of its loop, and then returns [None]. *)
Theorem C2_retry_ceiling env file_path max_retries w :
  0 ≤ max_retries →
  is_Some (downloads w !! file_path) →
  (∀ n, transient (whisper env n file_path) = true) →
  let r := run (transcribe_audio env file_path max_retries) w in
  result_of r = Ret None ∧
  Z.of_nat (count_events is_api_call (events_of r)) = max_retries ∧
  Z.of_nat (requests (world_of r)) = Z.of_nat (requests w) + max_retries.
Proof.
  intros Hmax Hfile Hfail.
  destruct (transcribe_attempts_transient env file_path max_retries
              (Z.to_nat max_retries) 0 w) as (evs & Hrun & Hcalls & _);
    [done|lia|done|done|].
  cbv zeta. unfold run, transcribe_audio. rewrite bind_run. run_monad.
  rewrite Hrun. cbn [fst snd requests add_requests].
  change (count_events is_api_call (EvPrint (MsgTranscribing file_path) :: evs))
    with (count_events is_api_call evs).
  rewrite Hcalls. repeat split; lia.
Qed.

Lemma C2_retry_ceiling_witness :
  let r := run (transcribe_audio (sample_env service_down) "talk.mp3"
                  default_max_retries) one_file in
  result_of r = Ret None ∧
  Z.of_nat (count_events is_api_call (events_of r)) = 3 ∧
  Z.of_nat (requests (world_of r)) = Z.of_nat (requests one_file) + 3.
Proof.
  apply (C2_retry_ceiling (sample_env service_down) "talk.mp3" 3 one_file).
  - lia.
  - exists 2000. reflexivity.
  - intros n. reflexivity.
Defined.

(** C3 — Quota short-circuit.  When the first request is answered by a
    rate-limit error that reports insufficient quota, [transcribe_audio]
    returns [None] after that one request: no retry, no sleep. *)
Theorem C3_quota_short_circuit env file_path max_retries w :
  0 < max_retries →
  is_Some (downloads w !! file_path) →
  quota_exhausted (whisper env (requests w) file_path) = true →
  let r := run (transcribe_audio env file_path max_retries) w in
  r = (Ret None, bump_requests w,
       [EvPrint (MsgTranscribing file_path); EvPrint MsgSending;
        EvApiCall file_path; EvPrint MsgQuota; EvPrint MsgBilling]) ∧
  count_events is_api_call (events_of r) = 1%nat ∧
  count_events is_sleep (events_of r) = 0%nat.
Proof.
  intros Hmax [size Hfile] Hquota. cbv zeta.
  assert (Hrun : run (transcribe_audio env file_path max_retries) w =
      (Ret None, bump_requests w,
       [EvPrint (MsgTranscribing file_path); EvPrint MsgSending;
        EvApiCall file_path; EvPrint MsgQuota; EvPrint MsgBilling])).
  { unfold run, transcribe_audio. rewrite bind_run. run_monad.
    destruct (Z.to_nat max_retries) as [|todo] eqn:Htodo; [lia|].
    rewrite transcribe_attempts_step, Hfile by done.
    destruct (whisper env (requests w) file_path) as [text|msg|msg];
      cbn in Hquota; [done| |done].
    by rewrite Hquota. }
  rewrite Hrun. by repeat split.
Qed.

Lemma C3_quota_short_circuit_witness :
  let r := run (transcribe_audio (sample_env service_no_quota) "talk.mp3"
                  default_max_retries) one_file in
  r = (Ret None, bump_requests one_file,
       [EvPrint (MsgTranscribing "talk.mp3"); EvPrint MsgSending;
        EvApiCall "talk.mp3"; EvPrint MsgQuota; EvPrint MsgBilling]) ∧
  count_events is_api_call (events_of r) = 1%nat ∧
  count_events is_sleep (events_of r) = 0%nat.
Proof.
  apply (C3_quota_short_circuit (sample_env service_no_quota) "talk.mp3" 3 one_file).
  - lia.
  - exists 2000. reflexivity.
  - reflexivity.
Defined.

(** ** The run coordinator *)


(** C6 — Idempotent resume.  When the transcript of an audio file (same
    stem, extension [.txt], in the output directory) exists when the loop
    reaches the file, the iteration only prints two lines: it sends no
    request, adds one to the skipped count and leaves the world, and so
    the transcript, as it was.  Nothing is looked at but the presence of
    the file.  Over the whole loop no request is sent for that file and
    the transcript keeps its text. *)
Theorem C6_existing_transcript_skipped env delay total c i mp3_file w text :
  transcripts w !! (PyPath.stem mp3_file +:+ ".txt") = Some text →
  run (process_audio env delay total c i mp3_file) w =
    (Ret (mkCounters (transcribed_count c) (skipped_count c + 1)), w,
     [EvPrint (MsgProcessingAudio i total mp3_file);
      EvPrint (MsgTranscriptExists (PyPath.stem mp3_file +:+ ".txt"))]) ∧
  ∀ files c0 i0,
    let r := run (transcription_loop env delay total c0 i0 files) w in
    filter (λ e, is_api_call_for mp3_file e) (events_of r) = [] ∧
    transcripts (world_of r) !! (PyPath.stem mp3_file +:+ ".txt") = Some text.
Proof.
  intros Hfile. split.
  - unfold run. rewrite process_audio_run. cbv zeta.
    unfold transcript_name. rewrite bool_decide_eq_true_2; [done|by exists text].
  - intros files c0 i0. split.
    + apply loop_no_request_for. by exists text.
    + by apply loop_keeps_transcripts.
Qed.

Lemma C6_existing_transcript_skipped_witness :
  let w := two_files {[ "talk.txt"%string := "an old transcript"%string ]} in
  run (process_audio (sample_env service_up) 5 2 (mkCounters 1 0) 2 "talk.mp3") w =
    (Ret (mkCounters 1 1), w,
     [EvPrint (MsgProcessingAudio 2 2 "talk.mp3");
      EvPrint (MsgTranscriptExists "talk.txt")]) ∧
  ∀ files c0 i0,
    let r := run (transcription_loop (sample_env service_up) 5 2 c0 i0 files) w in
    filter (λ e, is_api_call_for "talk.mp3" e) (events_of r) = [] ∧
    transcripts (world_of r) !! "talk.txt"%string = Some "an old transcript"%string.
Proof.
  apply (C6_existing_transcript_skipped (sample_env service_up) 5 2
           (mkCounters 1 0) 2 "talk.mp3"
           (two_files {[ "talk.txt"%string := "an old transcript"%string ]})
           "an old transcript").
  reflexivity.
Defined.



(** Three runs of the loop over [intro.mp3] and [talk.mp3] with a delay of
    five seconds: both transcribed; the first transcribed and the second
    already done; both failed. *)
Example pacing_between_two_transcriptions :
  filter (λ e, is_sleep e)
    (events_of (run (transcription_loop (sample_env service_up) 5 2 (mkCounters 0 0) 1
                       ["intro.mp3"; "talk.mp3"]%string) (two_files ∅))) =
  [EvSleep Pacing 5].
Proof. vm_compute. reflexivity. Qed.


Example no_pacing_after_failures :
  filter (λ e, is_sleep e)
    (events_of (run (transcription_loop (sample_env service_down) 5 2 (mkCounters 0 0) 1
                       ["intro.mp3"; "talk.mp3"]%string) (two_files ∅))) =
  [EvSleep RetryBackoff 5; EvSleep RetryBackoff 5;
   EvSleep RetryBackoff 5; EvSleep RetryBackoff 5].
Proof. vm_compute. reflexivity. Qed.

Lemma filter_nil_not_elem (p : Event → bool) evs e :
  filter (λ e, p e) evs = [] → e ∈ evs → p e = false.
Proof.
  intros Hnil He. destruct (p e) eqn:Hp; [|done].
  assert (e ∈ filter (λ e, p e) evs) as Hin
    by (apply list_elem_of_filter; split; [by rewrite Hp|done]).
  rewrite Hnil in Hin. by apply not_elem_of_nil in Hin.
Qed.





(** A run with one file transcribed and one failed: the failed one is
    among the skipped. *)
Example summary_of_a_mixed_run :
  let r := run (transcription_phase (sample_env service_partial) sample_args)
             (two_files ∅) in
  result_of r = Ret () ∧
  filter (λ e, is_write e) (events_of r) =
    [EvWrite "intro.txt" "welcome to the course"] ∧
  drop 27 (events_of r) =
    [EvPrint (MsgSection "COMPLETION SUMMARY");
     EvPrint (MsgTotal 2);
     EvPrint (MsgTranscribed 1);
     EvPrint (MsgSkipped 1);
     EvPrint (MsgFailed 0);
     EvPrint (MsgSavedTo "transcriptions");
     EvPrint MsgAllDone].
Proof. vm_compute. repeat split. Qed.

(** In the transcription phase, the only [Failed] line is that of the
    summary; by then the two counters add up to the number of files. *)
Lemma transcription_phase_failed_line env args w n :
  EvPrint (MsgFailed n) ∈ events_of (run (transcription_phase env args) w) →
  n = 0 ∧
  ∃ c, result_of (run (transcription_loop env (delay args)
                         (Z.of_nat (length (mp3_files w))) (mkCounters 0 0) 1
                         (mp3_files w)) w) = Ret c ∧
       transcribed_count c + skipped_count c = Z.of_nat (length (mp3_files w)).
Proof.
  rewrite transcription_phase_run. cbv zeta.
  pose proof (loop_result env (delay args) (Z.of_nat (length (mp3_files w)))
                (mp3_files w) (mkCounters 0 0) 1 w) as Hloop.
  pose proof (loop_silent env (delay args) (Z.of_nat (length (mp3_files w)))
                is_failed_line (mp3_files w) (mkCounters 0 0) 1 w) as Hquiet.
  cbv zeta in Hloop.
  assert (Hnot : EvPrint (MsgFailed n) ∉
            events_of (run (transcription_loop env (delay args)
                              (Z.of_nat (length (mp3_files w))) (mkCounters 0 0) 1
                              (mp3_files w)) w)).
  { intros Hin. apply (filter_nil_not_elem is_failed_line) in Hin; [done|].
    apply Hquiet.
    - intros file e He. destruct e as [m| | |[]| |]; try destruct m; done.
    - intros e He. destruct e as [m| | |[]| |]; try destruct m; done. }
  destruct (result_of (run (transcription_loop _ _ _ _ _ _) _)) as [c|e|code];
    cbn [events_of snd].
  - destruct Hloop as (Hsum & _). cbn in Hsum.
    rewrite elem_of_cons, elem_of_app. intros [Hin|[Hin|Hin]]; [done|done|].
    unfold summary_events in Hin. rewrite !elem_of_cons in Hin.
    destruct Hin as [Hin|[Hin|[Hin|[Hin|[Hin|[Hin|[Hin|Hin]]]]]]]; try done.
    + injection Hin as ->. split; [lia|]. exists c. split; [done|lia].
    + by apply not_elem_of_nil in Hin.
  - rewrite elem_of_cons. intros [Hin|Hin]; done.
  - done.
Qed.

(** C9 — The [Failed] line always reads zero.  In every run of [main],
    whatever is printed as the failed count is zero: the line is printed
    by the summary only, after a loop whose every iteration added one to
    the transcribed counter or to the skipped counter (a failed
    transcription adds to the skipped one), so that the two counters add
    up to the total and the total minus both is zero.  [w1] is the world
    the transcription phase starts in. *)
Theorem C9_failed_always_zero env args w n :
  EvPrint (MsgFailed n) ∈ events_of (run (main env args) w) →
  n = 0 ∧
  let w1 := world_of (run (download_phase env args) w) in
  ∃ c, result_of (run (transcription_loop env (delay args)
                         (Z.of_nat (length (mp3_files w1))) (mkCounters 0 0) 1
                         (mp3_files w1)) w1) = Ret c ∧
       transcribed_count c + skipped_count c = Z.of_nat (length (mp3_files w1)).
Proof.
  unfold run at 1, main. rewrite bind_run.
  pose proof (download_phase_quiet env args w) as Hquiet. unfold run in *.
  destruct (download_phase env args w) as [[[[]|e|code] w1] t1];
    cbn [after events_of world_of fst snd] in *.
  - rewrite elem_of_app. intros [Hin|Hin].
    + by apply (filter_nil_not_elem is_failed_line) in Hin.
    + by apply transcription_phase_failed_line in Hin.
  - intros Hin. by apply (filter_nil_not_elem is_failed_line) in Hin.
  - intros Hin. by apply (filter_nil_not_elem is_failed_line) in Hin.
Qed.

Lemma C9_failed_always_zero_witness :
  let env := sample_env service_down in
  let w := two_files ∅ in
  EvPrint (MsgFailed 0) ∈ events_of (run (main env sample_args) w) ∧
  (0 = 0 ∧
   let w1 := world_of (run (download_phase env sample_args) w) in
   ∃ c, result_of (run (transcription_loop env (delay sample_args)
                          (Z.of_nat (length (mp3_files w1))) (mkCounters 0 0) 1
                          (mp3_files w1)) w1) = Ret c ∧
        transcribed_count c + skipped_count c = Z.of_nat (length (mp3_files w1))).
Proof.
  assert (Hin : EvPrint (MsgFailed 0) ∈
            events_of (run (main (sample_env service_down) sample_args) (two_files ∅)))
    by (vm_compute; repeat constructor).
  split; [exact Hin|].
  exact (C9_failed_always_zero (sample_env service_down) sample_args (two_files ∅) 0 Hin).
Defined.

(** C1 — A failed transcription is counted as skipped, not as failed.
    One audio file without a transcript, a service whose quota is used up:
    [transcribe_audio] returns [None], nothing is written, the run goes on
    to the summary, and the summary reads one skipped file and no failed
    one. *)
Theorem C1_failure_counted_as_skipped :
  let r := run (transcription_phase (sample_env service_no_quota) sample_args) one_file in
  result_of (run (transcribe_audio (sample_env service_no_quota) "talk.mp3"
                    default_max_retries) one_file) = Ret None ∧
  result_of r = Ret () ∧
  transcripts (world_of r) = ∅ ∧
  events_of r =
    [EvPrint (MsgSection "TRANSCRIBING AUDIO FILES");
     EvPrint (MsgProcessingAudio 1 1 "talk.mp3");
     EvPrint (MsgTranscribing "talk.mp3");
     EvPrint MsgSending;
     EvApiCall "talk.mp3";
     EvPrint MsgQuota;
     EvPrint MsgBilling;
     EvPrint (MsgSkippedTranscription "talk.mp3");
     EvPrint (MsgSection "COMPLETION SUMMARY");
     EvPrint (MsgTotal 1);
     EvPrint (MsgTranscribed 0);
     EvPrint (MsgSkipped 1);
     EvPrint (MsgFailed 0);
     EvPrint (MsgSavedTo "transcriptions");
     EvPrint MsgAllDone].
Proof. vm_compute. repeat split. Qed.

(** ** The audio fetcher *)

Lemma size_mb_le (size max_size_mb : Z) :
  Qle_bool (inject_Z size / inject_Z (1024 * 1024)) (inject_Z max_size_mb) =
  (size <=? max_size_mb * (1024 * 1024)).
Proof.
  change (1024 * 1024) with 1048576.
  unfold Qle_bool, Qdiv, Qmult, Qinv, inject_Z. cbn [Qnum Qden].
  apply eq_iff_eq_true. rewrite !Z.leb_le. lia.
Qed.

Lemma check_file_size_run file_path max_size_mb w size :
  downloads w !! file_path = Some size →
  run (check_file_size file_path max_size_mb) w =
  let size_mb := (inject_Z size / inject_Z (1024 * 1024))%Q in
  if size <=? max_size_mb * (1024 * 1024)
  then (Ret true, w, [EvPrint (MsgFileSizeOK size_mb)])
  else (Ret false, w, [EvPrint (MsgFileTooLarge file_path size_mb max_size_mb)]).
Proof.
  intros Hsize. unfold run, check_file_size, stat_size. run_monad.
  rewrite Hsize. run_monad. rewrite size_mb_le.
  by destruct (size <=? max_size_mb * (1024 * 1024)).
Qed.

(** C10 — The size comparison is strict.  For a file of less than 2^53
    bytes, whose size in megabytes Python computes without rounding,
    [check_file_size] returns [True] exactly when the size is at most the
    ceiling in bytes, [max_size_mb] times 1024 * 1024: a file of exactly
    that size passes, and only a larger one is reported as too large. *)
Theorem C10_size_check_strict file_path max_size_mb w size :
  downloads w !! file_path = Some size →
  0 ≤ size < 2 ^ 53 →
  let r := run (check_file_size file_path max_size_mb) w in
  let size_mb := (inject_Z size / inject_Z (1024 * 1024))%Q in
  (size = max_size_mb * (1024 * 1024) → result_of r = Ret true) ∧
  (size ≤ max_size_mb * (1024 * 1024) →
   r = (Ret true, w, [EvPrint (MsgFileSizeOK size_mb)])) ∧
  (max_size_mb * (1024 * 1024) < size →
   r = (Ret false, w, [EvPrint (MsgFileTooLarge file_path size_mb max_size_mb)])).
Proof.
  intros Hsize _. cbv zeta. rewrite (check_file_size_run _ _ _ _ Hsize). cbv zeta.
  repeat split.
  - intros ->. by rewrite Z.leb_refl.
  - intros Hle. by replace (_ <=? _) with true by lia.
  - intros Hlt. by replace (_ <=? _) with false by lia.
Qed.

Lemma C10_size_check_strict_witness :
  let w := mkWorld {[ "limit.mp3"%string := 25 * 1024 * 1024 ]} ∅ 0 0 in
  let r := run (check_file_size "limit.mp3" default_max_size_mb) w in
  result_of r = Ret true.
Proof.
  refine (proj1 (C10_size_check_strict "limit.mp3" 25
                   (mkWorld {[ "limit.mp3"%string := 25 * 1024 * 1024 ]} ∅ 0 0)
                   (25 * 1024 * 1024) _ _) _); [reflexivity|lia|reflexivity].
Defined.

(** [set.pop] takes an element of a set that is not empty. *)
Lemma set_pop_run env (s : gset string) w :
  s ≠ ∅ →
  ∃ x, x ∈ s ∧ run (set_pop env s) w = (Ret x, w, []).
Proof.
  intros Hne. unfold run, set_pop. cbv zeta.
  assert (Hlen : (0 < length (elements s))%nat).
  { destruct (elements s) eqn:Hel; [|cbn; lia].
    by apply elements_empty_inv, leibniz_equiv in Hel. }
  destruct (lookup_lt_is_Some_2 (elements s)
              (set_pop_index env s `mod` length (elements s))%nat) as [x Hx].
  { apply Nat.mod_upper_bound. lia. }
  exists x. rewrite Hx. split; [|done].
  apply elem_of_elements. by eapply list_elem_of_lookup_2.
Qed.

(** C8 — The size check is a soft limit.  When the download exits with
    status zero and leaves a new [*.mp3], [download_audio_if_needed]
    checks the size of the new file against 25 MB, prints what the check
    found, and returns the file whatever the check returned; the download
    loop of [main] appends it to the downloaded files. *)
Theorem C8_oversized_file_is_kept env url w dir :
  yt_dlp_extract_audio env (runs w) url (downloads w) = (0, dir) →
  let before_files := filter (λ name, PyPath.is_mp3 name) (dom (downloads w)) in
  let after_files := filter (λ name, PyPath.is_mp3 name) (dom dir) in
  after_files ∖ before_files ≠ ∅ →
  ∃ new_file size,
    new_file ∈ after_files ∖ before_files ∧
    dir !! new_file = Some size ∧
    let w' := mkWorld dir (transcripts w) (S (runs w)) (requests w) in
    let size_mb := (inject_Z size / inject_Z (1024 * 1024))%Q in
    let passed := size <=? default_max_size_mb * (1024 * 1024) in
    let report :=
      if passed then EvPrint (MsgFileSizeOK size_mb)
      else EvPrint (MsgFileTooLarge new_file size_mb default_max_size_mb) in
    run (check_file_size new_file default_max_size_mb) w' = (Ret passed, w', [report]) ∧
    run (download_audio_if_needed env url) w =
      (Ret (Some new_file), w',
       [EvPrint MsgDownloading; EvPrint (MsgUrl url); EvRun (YtDlpExtractAudio url);
        EvPrint (MsgDownloaded new_file); report]) ∧
    ∀ n downloaded_files i,
      result_of (run (download_step env n downloaded_files i url) w) =
        Ret (downloaded_files ++ [new_file]).
Proof.
  intros Hrun before_files after_files Hnew.
  set (w' := mkWorld dir (transcripts w) (S (runs w)) (requests w)).
  destruct (set_pop_run env (after_files ∖ before_files) w' Hnew)
    as (new_file & Hin & Hpop).
  assert (Hdir : is_Some (dir !! new_file)).
  { apply elem_of_dom. apply elem_of_difference in Hin as [Hin _].
    by apply elem_of_filter in Hin as [_ Hin]. }
  destruct Hdir as [size Hsize].
  exists new_file, size. split; [done|]. split; [done|]. cbv zeta.
  assert (Hcheck : run (check_file_size new_file default_max_size_mb) w' =
            (Ret (size <=? default_max_size_mb * (1024 * 1024)), w',
             [if size <=? default_max_size_mb * (1024 * 1024)
              then EvPrint (MsgFileSizeOK (inject_Z size / inject_Z (1024 * 1024)))
              else EvPrint (MsgFileTooLarge new_file
                              (inject_Z size / inject_Z (1024 * 1024))
                              default_max_size_mb)])).
  { rewrite (check_file_size_run new_file default_max_size_mb w' size Hsize).
    cbv zeta. by destruct (size <=? _). }
  assert (Hdownload : run (download_audio_if_needed env url) w =
      (Ret (Some new_file), w',
       [EvPrint MsgDownloading; EvPrint (MsgUrl url); EvRun (YtDlpExtractAudio url);
        EvPrint (MsgDownloaded new_file);
        if size <=? default_max_size_mb * (1024 * 1024)
        then EvPrint (MsgFileSizeOK (inject_Z size / inject_Z (1024 * 1024)))
        else EvPrint (MsgFileTooLarge new_file
                        (inject_Z size / inject_Z (1024 * 1024))
                        default_max_size_mb)])).
  { unfold run in *. unfold download_audio_if_needed, glob_mp3, run_extract_audio.
    run_monad. rewrite Hrun. change (0 =? 0) with true. run_monad. fold w'.
    change (downloads w') with dir. fold before_files after_files.
    rewrite bool_decide_eq_true_2 by done.
    rewrite Hpop. run_monad. rewrite Hcheck. reflexivity. }
  split; [done|]. split; [done|].
  intros n downloaded_files i. unfold run in *.
  unfold download_step, glob_mp3. run_monad. rewrite Hdownload. reflexivity.
Qed.

Lemma C8_oversized_file_is_kept_witness :
  let env := sample_env service_up in
  ∃ new_file,
    run (download_audio_if_needed env "https://www.youtube.com/watch?v=a1") one_file =
      (Ret (Some new_file),
       mkWorld (<["video0.mp3"%string := 30000000]> (downloads one_file)) ∅ 1 0,
       [EvPrint MsgDownloading; EvPrint (MsgUrl "https://www.youtube.com/watch?v=a1");
        EvRun (YtDlpExtractAudio "https://www.youtube.com/watch?v=a1");
        EvPrint (MsgDownloaded new_file);
        EvPrint (MsgFileTooLarge new_file
                   (inject_Z 30000000 / inject_Z (1024 * 1024)) 25)]).
Proof.
  destruct (C8_oversized_file_is_kept (sample_env service_up)
              "https://www.youtube.com/watch?v=a1" one_file
              (<["video0.mp3"%string := 30000000]> (downloads one_file)))
    as (new_file & size & Hin & Hsize & _ & Hrun & _).
  - reflexivity.
  - apply (bool_decide_unpack _). vm_compute. exact I.
  - assert (Hname : new_file = "video0.mp3"%string).
    { apply elem_of_difference in Hin as [Hin Hout].
      apply elem_of_filter in Hin as [Hmp3 Hin].
      apply elem_of_dom in Hin as [sz Hin].
      apply lookup_insert_Some in Hin as [[Heq _]|[_ Hin]]; [done|].
      exfalso. apply Hout. apply elem_of_filter. split; [done|].
      apply elem_of_dom. by exists sz. }
    subst new_file. exists "video0.mp3"%string.
    rewrite lookup_insert_eq in Hsize. injection Hsize as <-. exact Hrun.
Defined.

(** ** The video-list resolver *)

Section GetVideoList.

Variable env : Env.

Lemma watch_urls_run entries ids :
  Forall2 entry_id entries ids →
  mapM (λ entry, id ← Py.getitem entry "id"; mret (watch_url env id)) entries =
  Ret (watch_url env <$> ids).
Proof.
  induction 1 as [|entry id entries ids (d & -> & Hid) _ IH]; [done|].
  cbn [mapM Py.getitem]. rewrite Hid, IH. reflexivity.
Qed.

Lemma preview_returns entries : ∀ i w,
  Forall previewable entries →
  ∃ evs, preview env i entries w = (Ret (), w, evs).
Proof.
  intros i w H. revert i.
  induction H as [|entry entries (d & -> & Htitle) _ IH];
    intros i; [by exists []|].
  destruct (IH (i + 1)) as [evs Hevs].
  cbn [preview Py.get].
  destruct (default (JStr "Unknown Title") (Py.assoc "title" d)); try done;
    run_monad; cbn [Py.slice_to]; rewrite Hevs; by eexists.
Qed.

(** C7 — The video list.  The metadata [d] is what [yt-dlp] printed for
    the URL.  When it has no entries (none, or an empty list) and an
    identifier that is not empty, the resolver returns the list whose only
    element is the URL it was given.  When it has entries, each with an
    identifier, and, when they are two or more, the first three with a
    title that the preview can show, the resolver returns, entry by entry,
    the watch URL built from the identifier. *)
Theorem C7_video_list_of_identified_entries url w stdout d :
  yt_dlp_flat_playlist env url = (0, stdout) →
  json_loads env stdout = Some (JDict d) →
  (Py.truthy (entries_of d) = false →
   Py.truthy (id_of d) = true →
   run (get_video_list env url) w =
     (Ret [url], w,
      [EvPrint (MsgSection "GETTING VIDEO LIST"); EvPrint MsgAnalyzing;
       EvRun (YtDlpFlatPlaylist url); EvPrint MsgSingleVideo])) ∧
  (∀ entries ids,
     entries_of d = JList entries →
     entries ≠ [] →
     Forall2 entry_id entries ids →
     ((1 < length entries)%nat → Forall previewable (take 3 entries)) →
     result_of (run (get_video_list env url) w) =
       Ret ((λ id, "https://www.youtube.com/watch?v=" +:+
                   Py.str (repr_container env) id) <$> ids) ∧
     world_of (run (get_video_list env url) w) = w).
Proof.
  intros Hrun Hjson. split.
  - intros Hentries Hid.
    unfold run, get_video_list, run_flat_playlist. run_monad.
    rewrite Hrun. change (0 =? 0) with true. run_monad.
    rewrite Hjson. run_monad. cbn [Py.get]. fold (entries_of d).
    rewrite Hentries. run_monad. fold (id_of d). by rewrite Hid.
  - intros entries ids Hentries Hne Hids Htitles.
    pose proof (Forall2_length _ _ _ Hids) as Hlen.
    pose proof (watch_urls_run _ _ Hids) as Hurls. unfold mbind, mret in Hurls.
    unfold run, get_video_list, run_flat_playlist. run_monad.
    rewrite Hrun. change (0 =? 0) with true. run_monad.
    rewrite Hjson. run_monad. cbn [Py.get]. fold (entries_of d).
    rewrite Hentries. cbn [Py.truthy Py.iter Py.slice_to Py.len].
    destruct entries as [|entry entries]; [done|]. run_monad.
    rewrite Hurls. run_monad.
    rewrite length_fmap, <- Hlen.
    destruct (1 <? Z.of_nat (length (entry :: entries))) eqn:Hmany;
      run_monad; [|done].
    destruct (preview_returns (take 3 (entry :: entries)) 0 w)
      as [evs Hpreview]; [apply Htitles; lia|].
    rewrite Hpreview. run_monad.
    destruct (3 <? Z.of_nat (length (entry :: entries))); by run_monad.
Qed.

End GetVideoList.

Lemma C7_video_list_of_identified_entries_witness :
  run (get_video_list single_video_env "https://www.youtube.com/watch?v=a1") one_file =
    (Ret ["https://www.youtube.com/watch?v=a1"%string], one_file,
     [EvPrint (MsgSection "GETTING VIDEO LIST"); EvPrint MsgAnalyzing;
      EvRun (YtDlpFlatPlaylist "https://www.youtube.com/watch?v=a1");
      EvPrint MsgSingleVideo]) ∧
  result_of (run (get_video_list (sample_env service_up) (url sample_args)) one_file) =
    Ret ["https://www.youtube.com/watch?v=a1"%string;
         "https://www.youtube.com/watch?v=b2"%string].
Proof.
  split.
  - apply (C7_video_list_of_identified_entries single_video_env
             "https://www.youtube.com/watch?v=a1" one_file "video.json"
             [("id"%string, JStr "a1"); ("title"%string, JStr "Intro")]);
      reflexivity.
  - refine (proj1 (proj2 (C7_video_list_of_identified_entries
                            (sample_env service_up) (url sample_args)
                            one_file "playlist.json" _ eq_refl eq_refl)
                     _ [JStr "a1"; JStr "b2"] eq_refl _ _ _)).
    + discriminate.
    + repeat constructor; eexists; (split; reflexivity).
    + intros _. repeat constructor; eexists; (split; [reflexivity|exact I]).
Defined.

(** C7, as the specification states it, fails: metadata with sub-entries
    does not always give a list of watch URLs.  With a second entry that
    has no identifier the resolver ends in the [KeyError] of [entry['id']],
    and the identifier of the first entry is rewritten into nothing; with
    identifiers throughout and a first title that is [null], it ends in
    the [TypeError] of the preview. *)
Lemma C7_entries_without_video_list :
  result_of (run (get_video_list (listing_env 0 (Some (JDict metadata_missing_id)))
                    (url sample_args)) one_file) =
    Raise (OtherException KeyError "id") ∧
  result_of (run (get_video_list (listing_env 0 (Some (JDict metadata_null_title)))
                    (url sample_args)) one_file) =
    Raise (OtherException TypeError "object is not subscriptable").
Proof. split; vm_compute; reflexivity. Qed.

(** * Further properties of the script *)

Lemma after_nil {A} (r : Result A * World * list Event) : after [] r = r.
Proof. by destruct r as [[r w] t]. Qed.

Lemma after_app {A} t1 t2 (r : Result A * World * list Event) :
  after t1 (after t2 r) = after (t1 ++ t2) r.
Proof. unfold after, result_of, world_of, events_of; cbn. by rewrite app_assoc. Qed.

Lemma add_requests_0 w : add_requests 0 w = w.
Proof. by destruct w. Qed.

(** ** The retry loop of [transcribe_audio] *)

Section RetryLoop.

Variable env : Env.
Variable file_path : string.
Variable max_retries : Z.

(** [k] transient failures in a row, with iterations to spare, are [k]
    requests, after which the loop goes on with the next attempt. *)
Lemma transcribe_attempts_transient_prefix k : ∀ todo attempt w,
  0 ≤ attempt →
  attempt + Z.of_nat k < max_retries →
  is_Some (downloads w !! file_path) →
  (∀ j, (j < k)%nat → transient (whisper env (requests w + j) file_path) = true) →
  ∃ evs,
    transcribe_attempts env file_path max_retries (k + todo) attempt w =
      after evs (transcribe_attempts env file_path max_retries todo
                   (attempt + Z.of_nat k) (add_requests k w)) ∧
    count_events is_api_call evs = k.
Proof.
  induction k as [|k IH]; intros todo attempt w Hatt Hmax [size Hfile] Hfail.
  - exists []. rewrite after_nil, add_requests_0, Nat2Z.inj_0, Z.add_0_r. done.
  - cbn [Nat.add]. rewrite transcribe_attempts_step, Hfile by done.
    replace (attempt <? max_retries - 1) with true by lia.
    destruct (IH todo (attempt + 1) (bump_requests w)) as (evs & Hrun & Hcount);
      [lia|lia|by exists size| |].
    { intros j Hj. cbn [requests bump_requests].
      rewrite Nat.add_succ_comm. apply Hfail. lia. }
    rewrite add_requests_bump in Hrun.
    replace (attempt + 1 + Z.of_nat k) with (attempt + Z.of_nat (S k)) in Hrun by lia.
    pose proof (Hfail 0%nat ltac:(lia)) as H0. rewrite Nat.add_0_r in H0.
    destruct (whisper env (requests w) file_path) as [text|msg|msg];
      cbn in H0; [done| |].
    + apply negb_true_iff in H0. rewrite H0, Hrun, after_app.
      eexists. split; [reflexivity|].
      rewrite count_events_app, Hcount. reflexivity.
    + rewrite Hrun, after_app. eexists. split; [reflexivity|].
      rewrite count_events_app, Hcount. reflexivity.
Qed.

End RetryLoop.

(** X1 — The first answer that is not a transient failure decides.  After
    [k] transient failures, [k] below the number of attempts, a text is
    returned as it is: [k + 1] requests were sent. *)
Theorem transcribe_returns_first_text env file_path max_retries w k text :
  is_Some (downloads w !! file_path) →
  (k < Z.to_nat max_retries)%nat →
  (∀ j, (j < k)%nat → transient (whisper env (requests w + j) file_path) = true) →
  whisper env (requests w + k) file_path = ApiText text →
  let r := run (transcribe_audio env file_path max_retries) w in
  result_of r = Ret (Some text) ∧
  world_of r = add_requests (S k) w ∧
  count_events is_api_call (events_of r) = S k.
Proof.
  intros Hfile Hk Hfail Htext. cbv zeta.
  unfold run, transcribe_audio. rewrite bind_run. run_monad.
  replace (Z.to_nat max_retries) with (k + S (Z.to_nat max_retries - S k))%nat by lia.
  destruct (transcribe_attempts_transient_prefix env file_path max_retries k
              (S (Z.to_nat max_retries - S k)) 0 w) as (evs & -> & Hcount);
    [done|lia|done|done|].
  destruct Hfile as [size Hfile].
  rewrite transcribe_attempts_step by lia.
  cbn [downloads requests add_requests]. rewrite Hfile, (Nat.add_comm k), Htext.
  unfold after. cbn [fst snd result_of world_of events_of].
  split; [done|]. split.
  - unfold bump_requests, add_requests. cbn. done.
  - change (count_events is_api_call (EvPrint (MsgTranscribing file_path) :: ?x))
      with (count_events is_api_call x).
    rewrite count_events_app, Hcount.
    transitivity (k + 1)%nat; [reflexivity|lia].
Qed.

Lemma transcribe_returns_first_text_witness :
  let r := run (transcribe_audio (sample_env service_recovers) "talk.mp3"
                  default_max_retries) one_file in
  result_of r = Ret (Some "transcript of talk.mp3"%string) ∧
  world_of r = add_requests 2 one_file ∧
  count_events is_api_call (events_of r) = 2%nat.
Proof.
  apply (transcribe_returns_first_text (sample_env service_recovers) "talk.mp3" 3
           one_file 1 "transcript of talk.mp3").
  - exists 2000. reflexivity.
  - cbn. lia.
  - intros j Hj. assert (j = 0%nat) as -> by lia. reflexivity.
  - reflexivity.
Defined.

(** X2 — Quota exhaustion ends the retries at whatever attempt it comes:
    after [k] transient failures, [k] below the number of attempts, it
    makes [transcribe_audio] return [None] with [k + 1] requests sent. *)
Theorem quota_ends_retries_at_any_attempt env file_path max_retries w k :
  is_Some (downloads w !! file_path) →
  (k < Z.to_nat max_retries)%nat →
  (∀ j, (j < k)%nat → transient (whisper env (requests w + j) file_path) = true) →
  quota_exhausted (whisper env (requests w + k) file_path) = true →
  let r := run (transcribe_audio env file_path max_retries) w in
  result_of r = Ret None ∧
  world_of r = add_requests (S k) w ∧
  count_events is_api_call (events_of r) = S k.
Proof.
  intros Hfile Hk Hfail Hquota. cbv zeta.
  unfold run, transcribe_audio. rewrite bind_run. run_monad.
  replace (Z.to_nat max_retries) with (k + S (Z.to_nat max_retries - S k))%nat by lia.
  destruct (transcribe_attempts_transient_prefix env file_path max_retries k
              (S (Z.to_nat max_retries - S k)) 0 w) as (evs & -> & Hcount);
    [done|lia|done|done|].
  destruct Hfile as [size Hfile].
  rewrite transcribe_attempts_step by lia.
  cbn [downloads requests add_requests]. rewrite Hfile, (Nat.add_comm k).
  destruct (whisper env (requests w + k) file_path) as [text|msg|msg];
    cbn in Hquota; [done| |done].
  rewrite Hquota. unfold after. cbn [fst snd result_of world_of events_of].
  split; [done|]. split.
  - unfold bump_requests, add_requests. cbn. done.
  - change (count_events is_api_call (EvPrint (MsgTranscribing file_path) :: ?x))
      with (count_events is_api_call x).
    rewrite count_events_app, Hcount.
    transitivity (k + 1)%nat; [reflexivity|lia].
Qed.

Lemma quota_ends_retries_at_any_attempt_witness :
  let r := run (transcribe_audio (sample_env service_runs_out) "talk.mp3"
                  default_max_retries) one_file in
  result_of r = Ret None ∧
  world_of r = add_requests 2 one_file ∧
  count_events is_api_call (events_of r) = 2%nat.
Proof.
  apply (quota_ends_retries_at_any_attempt (sample_env service_runs_out) "talk.mp3" 3
           one_file 1).
  - exists 2000. reflexivity.
  - cbn. lia.
  - intros j Hj. assert (j = 0%nat) as -> by lia. reflexivity.
  - reflexivity.
Defined.

(** ** The sleeps of the retry loop *)

Section Backoff.

Variable env : Env.
Variable file_path : string.
Variable max_retries : Z.

Lemma sleeps_after {A} pre (r : Result A * World * list Event) :
  filter (λ e, is_sleep e) (events_of (after pre r)) =
  filter (λ e, is_sleep e) pre ++ filter (λ e, is_sleep e) (events_of r).
Proof. unfold after; cbn [events_of snd]. apply filter_app. Qed.

Lemma rate_limited_sleeps todo : ∀ a w,
  Z.of_nat a + Z.of_nat todo = max_retries ∨ todo = 0%nat →
  is_Some (downloads w !! file_path) →
  (∀ n, rate_limited (whisper env n file_path) = true) →
  filter (λ e, is_sleep e)
    (events_of (transcribe_attempts env file_path max_retries todo (Z.of_nat a) w)) =
  (λ n, EvSleep RateLimitBackoff (Z.of_nat n * 60)) <$> seq (S a) (pred todo).
Proof.
  induction todo as [|todo IH]; intros a w Hsum [size Hfile] Hlimit; [done|].
  destruct Hsum as [Hsum|]; [|done].
  rewrite transcribe_attempts_step, Hfile by lia.
  pose proof (Hlimit (requests w)) as Hnow.
  destruct (whisper env (requests w) file_path) as [text|msg|msg];
    cbn in Hnow; [done| |done].
  apply negb_true_iff in Hnow. rewrite Hnow.
  destruct todo as [|todo].
  - replace (Z.of_nat a <? max_retries - 1) with false by lia. reflexivity.
  - replace (Z.of_nat a <? max_retries - 1) with true by lia.
    rewrite sleeps_after.
    replace (Z.of_nat a + 1) with (Z.of_nat (S a)) by lia.
    rewrite IH; [reflexivity|left; lia|by exists size|done].
Qed.

Lemma other_failure_sleeps todo : ∀ a w,
  Z.of_nat a + Z.of_nat todo = max_retries ∨ todo = 0%nat →
  is_Some (downloads w !! file_path) →
  (∀ n, other_failure (whisper env n file_path) = true) →
  filter (λ e, is_sleep e)
    (events_of (transcribe_attempts env file_path max_retries todo (Z.of_nat a) w)) =
  replicate (pred todo) (EvSleep RetryBackoff 5).
Proof.
  induction todo as [|todo IH]; intros a w Hsum [size Hfile] Hfail; [done|].
  destruct Hsum as [Hsum|]; [|done].
  rewrite transcribe_attempts_step, Hfile by lia.
  pose proof (Hfail (requests w)) as Hnow.
  destruct (whisper env (requests w) file_path) as [text|msg|msg];
    cbn in Hnow; [done|done|].
  destruct todo as [|todo].
  - replace (Z.of_nat a <? max_retries - 1) with false by lia. reflexivity.
  - replace (Z.of_nat a <? max_retries - 1) with true by lia.
    rewrite sleeps_after.
    replace (Z.of_nat a + 1) with (Z.of_nat (S a)) by lia.
    rewrite IH; [reflexivity|left; lia|by exists size|done].
Qed.

(** Without the file nothing is sent: every iteration fails in [open]. *)
Lemma missing_file_attempts todo : ∀ a w,
  Z.of_nat a + Z.of_nat todo = max_retries ∨ todo = 0%nat →
  downloads w !! file_path = None →
  ∃ evs,
    transcribe_attempts env file_path max_retries todo (Z.of_nat a) w =
      (Ret None, w, evs) ∧
    filter (λ e, is_api_call e) evs = [] ∧
    filter (λ e, is_sleep e) evs = replicate (pred todo) (EvSleep RetryBackoff 5).
Proof.
  induction todo as [|todo IH]; intros a w Hsum Hfile; [by exists []|].
  destruct Hsum as [Hsum|]; [|done].
  rewrite transcribe_attempts_step, Hfile by lia.
  destruct todo as [|todo].
  - replace (Z.of_nat a <? max_retries - 1) with false by lia.
    eexists. repeat split.
  - replace (Z.of_nat a <? max_retries - 1) with true by lia.
    replace (Z.of_nat a + 1) with (Z.of_nat (S a)) by lia.
    destruct (IH (S a) w) as (evs & -> & Hcalls & Hsleeps); [left; lia|done|].
    rewrite after_triple. eexists. split; [reflexivity|].
    rewrite !filter_app, Hcalls, Hsleeps. split; reflexivity.
Qed.

End Backoff.

(** X3 — Rate-limit back-off grows with the attempt.  When every request
    for an existing file is answered by a rate-limit error that is not a
    quota error, the sleeps of [transcribe_audio] are 60, 120, ... seconds,
    one after each attempt but the last. *)
Theorem rate_limit_backoff_grows env file_path max_retries w :
  is_Some (downloads w !! file_path) →
  (∀ n, rate_limited (whisper env n file_path) = true) →
  filter (λ e, is_sleep e)
    (events_of (run (transcribe_audio env file_path max_retries) w)) =
  (λ n, EvSleep RateLimitBackoff (Z.of_nat n * 60)) <$>
    seq 1 (pred (Z.to_nat max_retries)).
Proof.
  intros Hfile Hlimit. unfold run, transcribe_audio. rewrite bind_run. run_monad.
  rewrite filter_cons_False by (cbn; exact id).
  apply (rate_limited_sleeps env file_path max_retries (Z.to_nat max_retries) 0 w);
    [|done..].
  destruct (Z.to_nat max_retries) eqn:Hn; [by right|left; lia].
Qed.

Lemma rate_limit_backoff_grows_witness :
  filter (λ e, is_sleep e)
    (events_of (run (transcribe_audio (sample_env service_rate_limited) "talk.mp3"
                       default_max_retries) one_file)) =
  [EvSleep RateLimitBackoff 60; EvSleep RateLimitBackoff 120].
Proof.
  apply (rate_limit_backoff_grows (sample_env service_rate_limited) "talk.mp3" 3
           one_file).
  - exists 2000. reflexivity.
  - intros n. reflexivity.
Defined.

(** X4 — The back-off after any other error is flat.  When every request
    for an existing file fails with an error that is not a rate-limit
    error, [transcribe_audio] sleeps five seconds after each attempt but the
    last. *)
Theorem other_error_backoff_is_flat env file_path max_retries w :
  is_Some (downloads w !! file_path) →
  (∀ n, other_failure (whisper env n file_path) = true) →
  filter (λ e, is_sleep e)
    (events_of (run (transcribe_audio env file_path max_retries) w)) =
  replicate (pred (Z.to_nat max_retries)) (EvSleep RetryBackoff 5).
Proof.
  intros Hfile Hfail. unfold run, transcribe_audio. rewrite bind_run. run_monad.
  rewrite filter_cons_False by (cbn; exact id).
  apply (other_failure_sleeps env file_path max_retries (Z.to_nat max_retries) 0 w);
    [|done..].
  destruct (Z.to_nat max_retries) eqn:Hn; [by right|left; lia].
Qed.

Lemma other_error_backoff_is_flat_witness :
  filter (λ e, is_sleep e)
    (events_of (run (transcribe_audio (sample_env service_down) "talk.mp3"
                       default_max_retries) one_file)) =
  [EvSleep RetryBackoff 5; EvSleep RetryBackoff 5].
Proof.
  apply (other_error_backoff_is_flat (sample_env service_down) "talk.mp3" 3 one_file).
  - exists 2000. reflexivity.
  - intros n. reflexivity.
Defined.

(** X5 — A file that cannot be opened.  When the audio file is missing,
    [transcribe_audio] sends no request at all: every attempt fails in
    [open], is retried after five seconds like any other error, and the
    result is [None]; the world is left as it was. *)
Theorem missing_file_sends_no_request env file_path max_retries w :
  downloads w !! file_path = None →
  let r := run (transcribe_audio env file_path max_retries) w in
  result_of r = Ret None ∧
  world_of r = w ∧
  filter (λ e, is_api_call e) (events_of r) = [] ∧
  filter (λ e, is_sleep e) (events_of r) =
    replicate (pred (Z.to_nat max_retries)) (EvSleep RetryBackoff 5).
Proof.
  intros Hfile. cbv zeta. unfold run, transcribe_audio. rewrite bind_run. run_monad.
  destruct (missing_file_attempts env file_path max_retries (Z.to_nat max_retries) 0 w)
    as (evs & Hrun & Hcalls & Hsleeps); [|done|].
  { destruct (Z.to_nat max_retries) eqn:Hn; [by right|left; lia]. }
  change (Z.of_nat 0) with 0 in Hrun. rewrite Hrun. cbn [fst snd].
  rewrite !filter_cons_False by (cbn; exact id). done.
Qed.

Lemma missing_file_sends_no_request_witness :
  let r := run (transcribe_audio (sample_env service_up) "gone.mp3"
                  default_max_retries) one_file in
  result_of r = Ret None ∧
  world_of r = one_file ∧
  filter (λ e, is_api_call e) (events_of r) = [] ∧
  filter (λ e, is_sleep e) (events_of r) =
    [EvSleep RetryBackoff 5; EvSleep RetryBackoff 5].
Proof.
  apply (missing_file_sends_no_request (sample_env service_up) "gone.mp3" 3 one_file).
  reflexivity.
Defined.

(** X6 — [transcribe_audio] never raises.  Whatever the service answers
    and whether or not the file exists, it returns a text or [None]; it
    sends at most [max_retries] requests (none when [max_retries] is zero
    or negative), changes nothing in the world but the count of requests,
    and emits only its own messages, requests for its file and back-off
    sleeps. *)
Theorem transcribe_audio_always_returns env file_path max_retries w :
  ∃ text n,
    let r := run (transcribe_audio env file_path max_retries) w in
    result_of r = Ret text ∧
    world_of r = add_requests n w ∧
    (n ≤ Z.to_nat max_retries)%nat ∧
    count_events is_api_call (events_of r) = n ∧
    Forall (λ e, transcriber_event file_path e) (events_of r).
Proof.
  destruct (transcribe_audio_run env file_path max_retries w)
    as (text & n & evs & Hrun & Hn & Hcount & Hevs).
  exists text, n. cbv zeta. unfold run. by rewrite Hrun.
Qed.

(** ** The failures of [get_video_list] *)

Section ResolverFailures.

Variable env : Env.

(** X7 — The listing failed.  When [yt-dlp] exits with a status that is
    not zero, [get_video_list] prints the error and leaves through
    [sys.exit(1)], whatever was on the standard output. *)
Theorem get_video_list_exits_on_failure url w code stdout :
  yt_dlp_flat_playlist env url = (code, stdout) →
  code ≠ 0 →
  run (get_video_list env url) w =
    (SysExit 1, w,
     [EvPrint (MsgSection "GETTING VIDEO LIST"); EvPrint MsgAnalyzing;
      EvRun (YtDlpFlatPlaylist url);
      EvPrint (MsgListError (CalledProcessError code))]).
Proof.
  intros Hrun Hcode. unfold run, get_video_list, run_flat_playlist. run_monad.
  rewrite Hrun. replace (code =? 0) with false by lia. by run_monad.
Qed.

(** X8 — Output that is not JSON.  Only a failed process is caught: when
    [yt-dlp] exits with status zero and its output does not parse, the
    [JSONDecodeError] leaves [get_video_list] as an exception, not as the
    exit of the process with status 1. *)
Theorem get_video_list_bad_json_raises url w stdout :
  yt_dlp_flat_playlist env url = (0, stdout) →
  json_loads env stdout = None →
  run (get_video_list env url) w =
    (Raise (OtherException JSONDecodeError stdout), w,
     [EvPrint (MsgSection "GETTING VIDEO LIST"); EvPrint MsgAnalyzing;
      EvRun (YtDlpFlatPlaylist url)]).
Proof.
  intros Hrun Hjson. unfold run, get_video_list, run_flat_playlist. run_monad.
  rewrite Hrun. change (0 =? 0) with true. run_monad. by rewrite Hjson.
Qed.

(** X9 — Neither entries nor identifier.  When the metadata has no entries
    (no key, or an empty list) and no identifier that counts as true, the
    result is the empty list: no URL, not even the one that was given. *)
Theorem get_video_list_empty url w stdout d :
  yt_dlp_flat_playlist env url = (0, stdout) →
  json_loads env stdout = Some (JDict d) →
  entries_of d = JList [] →
  Py.truthy (id_of d) = false →
  run (get_video_list env url) w =
    (Ret [], w,
     [EvPrint (MsgSection "GETTING VIDEO LIST"); EvPrint MsgAnalyzing;
      EvRun (YtDlpFlatPlaylist url); EvPrint (MsgFound 0)]).
Proof.
  intros Hrun Hjson Hentries Hid.
  unfold run, get_video_list, run_flat_playlist. run_monad.
  rewrite Hrun. change (0 =? 0) with true. run_monad.
  rewrite Hjson. run_monad. cbn [Py.get]. fold (entries_of d) (id_of d).
  rewrite Hentries. cbn [Py.truthy]. run_monad. by rewrite Hid.
Qed.

Lemma watch_urls_missing_id pre d post :
  Forall has_id pre →
  Py.assoc "id" d = None →
  mapM (λ entry, id ← Py.getitem entry "id"; mret (watch_url env id))
    (pre ++ JDict d :: post) = Raise (OtherException KeyError "id").
Proof.
  intros Hpre Hd. induction Hpre as [|entry pre (d0 & id & -> & Hid) _ IH].
  - cbn [app mapM Py.getitem]. by rewrite Hd.
  - cbn [app mapM Py.getitem]. rewrite Hid, IH. reflexivity.
Qed.

(** X10 — An entry without identifier.  When an entry of the playlist has
    no [id] key, the [KeyError] of the first such entry leaves
    [get_video_list]: no list is returned, not even of the entries that
    have one. *)
Theorem get_video_list_missing_id_raises url w stdout d pre entry post :
  yt_dlp_flat_playlist env url = (0, stdout) →
  json_loads env stdout = Some (JDict d) →
  entries_of d = JList (pre ++ JDict entry :: post) →
  Forall has_id pre →
  Py.assoc "id" entry = None →
  run (get_video_list env url) w =
    (Raise (OtherException KeyError "id"), w,
     [EvPrint (MsgSection "GETTING VIDEO LIST"); EvPrint MsgAnalyzing;
      EvRun (YtDlpFlatPlaylist url)]).
Proof.
  intros Hrun Hjson Hentries Hpre Hentry.
  pose proof (watch_urls_missing_id pre entry post Hpre Hentry) as Hurls.
  unfold mbind, mret in Hurls.
  unfold run, get_video_list, run_flat_playlist. run_monad.
  rewrite Hrun. change (0 =? 0) with true. run_monad.
  rewrite Hjson. run_monad. cbn [Py.get]. fold (entries_of d).
  rewrite Hentries. cbn [Py.truthy Py.iter].
  destruct (pre ++ JDict entry :: post) eqn:Hlist.
  { by destruct pre. }
  run_monad. by rewrite Hurls.
Qed.

Lemma watch_urls_returns entries :
  Forall has_id entries →
  ∃ urls,
    mapM (λ entry, id ← Py.getitem entry "id"; mret (watch_url env id)) entries =
      Ret urls ∧
    length urls = length entries.
Proof.
  induction 1 as [|entry entries (d & id & -> & Hid) _ (urls & IH & Hlen)].
  - by exists [].
  - exists (watch_url env id :: urls). cbn [mapM Py.getitem length].
    rewrite Hid, IH, Hlen. done.
Qed.

(** X11 — A title that is [null].  When the playlist has two entries or
    more, all with an identifier, and the title of the first one is
    [null], the preview raises a [TypeError] on [title[:50]] after the
    count was printed: the list of URLs, though computed, is not
    returned. *)
Theorem get_video_list_null_title_raises url w stdout d first rest :
  yt_dlp_flat_playlist env url = (0, stdout) →
  json_loads env stdout = Some (JDict d) →
  entries_of d = JList (JDict first :: rest) →
  rest ≠ [] →
  Forall has_id (JDict first :: rest) →
  Py.assoc "title" first = Some JNull →
  run (get_video_list env url) w =
    (Raise (OtherException TypeError "object is not subscriptable"), w,
     [EvPrint (MsgSection "GETTING VIDEO LIST"); EvPrint MsgAnalyzing;
      EvRun (YtDlpFlatPlaylist url);
      EvPrint (MsgFound (Z.of_nat (S (length rest))));
      EvPrint MsgPreview]).
Proof.
  intros Hrun Hjson Hentries Hrest Hids Htitle.
  destruct (watch_urls_returns _ Hids) as (urls & Hurls & Hlen).
  unfold mbind, mret in Hurls.
  unfold run, get_video_list, run_flat_playlist. run_monad.
  rewrite Hrun. change (0 =? 0) with true. run_monad.
  rewrite Hjson. run_monad. cbn [Py.get]. fold (entries_of d).
  rewrite Hentries. cbn [Py.truthy Py.iter Py.slice_to]. run_monad.
  rewrite Hurls. run_monad. rewrite Hlen. cbn [length].
  assert (Hmany : (0 < length rest)%nat) by (destruct rest; [done|cbn; lia]).
  rewrite (proj2 (Z.ltb_lt 1 (Z.of_nat (S (length rest))))) by lia.
  run_monad. cbn [take preview Py.get]. rewrite Htitle. by run_monad.
Qed.

End ResolverFailures.

Lemma get_video_list_exits_on_failure_witness :
  run (get_video_list (listing_env 1 None) (url sample_args)) one_file =
    (SysExit 1, one_file,
     [EvPrint (MsgSection "GETTING VIDEO LIST"); EvPrint MsgAnalyzing;
      EvRun (YtDlpFlatPlaylist (url sample_args));
      EvPrint (MsgListError (CalledProcessError 1))]).
Proof.
  apply (get_video_list_exits_on_failure (listing_env 1 None) (url sample_args)
           one_file 1 "listing").
  - reflexivity.
  - lia.
Defined.

Lemma get_video_list_bad_json_raises_witness :
  run (get_video_list (listing_env 0 None) (url sample_args)) one_file =
    (Raise (OtherException JSONDecodeError "listing"), one_file,
     [EvPrint (MsgSection "GETTING VIDEO LIST"); EvPrint MsgAnalyzing;
      EvRun (YtDlpFlatPlaylist (url sample_args))]).
Proof.
  apply (get_video_list_bad_json_raises (listing_env 0 None) (url sample_args)
           one_file "listing"); reflexivity.
Defined.

Lemma get_video_list_empty_witness :
  run (get_video_list (listing_env 0 (Some (JDict [("entries"%string, JList [])])))
         (url sample_args)) one_file =
    (Ret [], one_file,
     [EvPrint (MsgSection "GETTING VIDEO LIST"); EvPrint MsgAnalyzing;
      EvRun (YtDlpFlatPlaylist (url sample_args)); EvPrint (MsgFound 0)]).
Proof.
  apply (get_video_list_empty
           (listing_env 0 (Some (JDict [("entries"%string, JList [])])))
           (url sample_args) one_file "listing" [("entries"%string, JList [])]);
    reflexivity.
Defined.

Lemma get_video_list_missing_id_raises_witness :
  run (get_video_list (listing_env 0 (Some (JDict metadata_missing_id)))
         (url sample_args)) one_file =
    (Raise (OtherException KeyError "id"), one_file,
     [EvPrint (MsgSection "GETTING VIDEO LIST"); EvPrint MsgAnalyzing;
      EvRun (YtDlpFlatPlaylist (url sample_args))]).
Proof.
  apply (get_video_list_missing_id_raises
           (listing_env 0 (Some (JDict metadata_missing_id)))
           (url sample_args) one_file "listing" metadata_missing_id
           [JDict [("id"%string, JStr "a1")]] [("title"%string, JStr "Talk")] []).
  - reflexivity.
  - reflexivity.
  - reflexivity.
  - repeat constructor. by eexists _, _.
  - reflexivity.
Defined.

Lemma get_video_list_null_title_raises_witness :
  run (get_video_list (listing_env 0 (Some (JDict metadata_null_title)))
         (url sample_args)) one_file =
    (Raise (OtherException TypeError "object is not subscriptable"), one_file,
     [EvPrint (MsgSection "GETTING VIDEO LIST"); EvPrint MsgAnalyzing;
      EvRun (YtDlpFlatPlaylist (url sample_args));
      EvPrint (MsgFound 2); EvPrint MsgPreview]).
Proof.
  apply (get_video_list_null_title_raises
           (listing_env 0 (Some (JDict metadata_null_title)))
           (url sample_args) one_file "listing" metadata_null_title
           [("id"%string, JStr "a1"); ("title"%string, JNull)]
           [JDict [("id"%string, JStr "b2"); ("title"%string, JStr "Talk")]]).
  - reflexivity.
  - reflexivity.
  - reflexivity.
  - discriminate.
  - repeat constructor; by eexists _, _.
  - reflexivity.
Defined.

(** ** The download of one video and the download loop *)

Lemma difference_empty_iff (X Y : gset string) : X ∖ Y = ∅ ↔ X ⊆ Y.
Proof.
  split.
  - intros Hempty x Hx. destruct (decide (x ∈ Y)) as [|Hout]; [done|].
    assert (x ∈ X ∖ Y) as Hin by (by apply elem_of_difference).
    rewrite Hempty in Hin. by apply not_elem_of_empty in Hin.
  - intros Hsub. apply leibniz_equiv. intros x. split.
    + intros [Hin Hout]%elem_of_difference. by apply Hsub in Hin.
    + by intros ?%not_elem_of_empty.
Qed.

Section Downloads.

Variable env : Env.

Lemma download_failure_run url w code dir :
  yt_dlp_extract_audio env (runs w) url (downloads w) = (code, dir) →
  code ≠ 0 →
  run (download_audio_if_needed env url) w =
    (Ret None, mkWorld dir (transcripts w) (S (runs w)) (requests w),
     [EvPrint MsgDownloading; EvPrint (MsgUrl url); EvRun (YtDlpExtractAudio url);
      EvPrint (MsgDownloadFailed (CalledProcessError code))]).
Proof.
  intros Hrun Hcode.
  unfold run, download_audio_if_needed, glob_mp3, run_extract_audio. run_monad.
  rewrite Hrun. replace (code =? 0) with false by lia. by run_monad.
Qed.

Lemma download_nothing_new_run url w dir :
  yt_dlp_extract_audio env (runs w) url (downloads w) = (0, dir) →
  filter (λ name, PyPath.is_mp3 name) (dom dir) ⊆
    filter (λ name, PyPath.is_mp3 name) (dom (downloads w)) →
  run (download_audio_if_needed env url) w =
    (Ret None, mkWorld dir (transcripts w) (S (runs w)) (requests w),
     [EvPrint MsgDownloading; EvPrint (MsgUrl url); EvRun (YtDlpExtractAudio url);
      EvPrint MsgNoNewFile]).
Proof.
  intros Hrun Hnew.
  unfold run, download_audio_if_needed, glob_mp3, run_extract_audio. run_monad.
  rewrite Hrun. change (0 =? 0) with true. run_monad. cbn [downloads].
  rewrite bool_decide_eq_false_2; [by run_monad|].
  intros Hne. apply Hne. by apply difference_empty_iff.
Qed.

(** The download of one video always returns.  It runs [yt-dlp] once and
    leaves the world [after_download]; a file it returns is a [*.mp3] of
    the directory that was not there before. *)
Lemma download_audio_if_needed_run url w :
  ∃ file evs,
    run (download_audio_if_needed env url) w =
      (Ret file, after_download env url w, evs) ∧
    filter (λ e, is_run e) evs = [EvRun (YtDlpExtractAudio url)] ∧
    ∀ name, file = Some name →
      PyPath.is_mp3 name ∧
      name ∈ dom (downloads (after_download env url w)) ∧
      name ∉ dom (downloads w).
Proof.
  unfold after_download.
  destruct (yt_dlp_extract_audio env (runs w) url (downloads w)) as [code dir] eqn:Hrun.
  cbn [snd]. destruct (decide (code = 0)) as [->|Hcode].
  - set (w' := mkWorld dir (transcripts w) (S (runs w)) (requests w)).
    destruct (decide (filter (λ name, PyPath.is_mp3 name) (dom dir) ∖
                      filter (λ name, PyPath.is_mp3 name) (dom (downloads w)) = ∅))
      as [Hnone|Hnew].
    + exists None. eexists. rewrite (download_nothing_new_run _ _ _ Hrun)
        by (by apply difference_empty_iff).
      split; [reflexivity|]. split; [reflexivity|done].
    + destruct (set_pop_run env _ w' Hnew) as (new_file & Hin & Hpop).
      apply elem_of_difference in Hin as [Hin Hout].
      apply elem_of_filter in Hin as [Hmp3 Hin].
      pose proof Hin as Hsize. apply elem_of_dom in Hsize as [size Hsize].
      exists (Some new_file),
        [EvPrint MsgDownloading; EvPrint (MsgUrl url); EvRun (YtDlpExtractAudio url);
         EvPrint (MsgDownloaded new_file);
         if size <=? default_max_size_mb * (1024 * 1024)
         then EvPrint (MsgFileSizeOK (inject_Z size / inject_Z (1024 * 1024)))
         else EvPrint (MsgFileTooLarge new_file
                         (inject_Z size / inject_Z (1024 * 1024))
                         default_max_size_mb)].
      split; [|split].
      * unfold run in *. unfold download_audio_if_needed, glob_mp3, run_extract_audio.
        run_monad. rewrite Hrun. change (0 =? 0) with true. run_monad. fold w'.
        change (downloads w') with dir.
        rewrite bool_decide_eq_true_2 by done.
        rewrite Hpop. run_monad.
        pose proof (check_file_size_run new_file default_max_size_mb w' size Hsize)
          as Hcheck.
        unfold run in Hcheck. rewrite Hcheck. cbv zeta.
        destruct (size <=? _); reflexivity.
      * destruct (size <=? default_max_size_mb * (1024 * 1024)); reflexivity.
      * intros name [= <-]. split; [done|]. split; [done|].
        intros Hold. apply Hout. by apply elem_of_filter.
  - exists None. eexists.
    rewrite (download_failure_run _ _ _ _ Hrun Hcode).
    split; [reflexivity|]. split; [reflexivity|done].
Qed.

Lemma download_step_run n downloaded_files i url w :
  ∃ files evs,
    run (download_step env n downloaded_files i url) w =
      (Ret (downloaded_files ++ files), after_download env url w, evs) ∧
    (length files ≤ 1)%nat ∧
    filter (λ e, is_run e) evs = [EvRun (YtDlpExtractAudio url)].
Proof.
  destruct (download_audio_if_needed_run url w) as (file & evs & Hrun & Hruns & _).
  unfold run in *. unfold download_step, glob_mp3. run_monad. rewrite Hrun.
  destruct file as [name|]; run_monad.
  - exists [name]. eexists. split; [reflexivity|]. split; [done|].
    rewrite filter_cons_False by (cbn; exact id). by rewrite app_nil_r.
  - exists []. rewrite app_nil_r.
    destruct (bool_decide _); run_monad.
    + eexists. split; [reflexivity|]. split; [cbn; lia|].
      rewrite filter_cons_False by (cbn; exact id). by rewrite filter_app, Hruns.
    + eexists. split; [reflexivity|]. split; [cbn; lia|].
      rewrite filter_cons_False by (cbn; exact id). by rewrite app_nil_r.
Qed.

Lemma download_loop_run n urls : ∀ downloaded_files i w,
  ∃ files evs,
    run (download_loop env n downloaded_files i urls) w =
      (Ret (downloaded_files ++ files), after_downloads env urls w, evs) ∧
    (length files ≤ length urls)%nat ∧
    filter (λ e, is_run e) evs = (λ url, EvRun (YtDlpExtractAudio url)) <$> urls.
Proof.
  induction urls as [|url rest IH]; intros downloaded_files i w.
  - exists [], []. by rewrite app_nil_r.
  - destruct (download_step_run n downloaded_files i url w)
      as (files1 & evs1 & Hstep & Hlen1 & Hruns1).
    destruct (IH (downloaded_files ++ files1) (i + 1) (after_download env url w))
      as (files2 & evs2 & Hloop & Hlen2 & Hruns2).
    exists (files1 ++ files2), (evs1 ++ evs2).
    unfold run in *. cbn [download_loop]. rewrite bind_run, Hstep, Hloop.
    rewrite after_triple, app_assoc. split; [done|]. split.
    + rewrite length_app. cbn [length]. lia.
    + by rewrite filter_app, Hruns1, Hruns2.
Qed.

Lemma after_downloads_world urls : ∀ w,
  transcripts (after_downloads env urls w) = transcripts w ∧
  requests (after_downloads env urls w) = requests w ∧
  runs (after_downloads env urls w) = (runs w + length urls)%nat.
Proof.
  induction urls as [|url rest IH]; intros w; [cbn; auto with lia|].
  cbn [after_downloads foldl length].
  destruct (IH (after_download env url w)) as (Htr & Hreq & Hruns).
  unfold after_downloads in *. rewrite Htr, Hreq, Hruns. cbn. auto with lia.
Qed.

(** X12 — A failed download.  When [yt-dlp] exits with a status that is not
    zero, [download_audio_if_needed] prints the error and returns [None],
    also when the failed run left a new audio file behind; whatever it
    left stays in the directory. *)
Theorem download_failure_returns_none url w code dir :
  yt_dlp_extract_audio env (runs w) url (downloads w) = (code, dir) →
  code ≠ 0 →
  run (download_audio_if_needed env url) w =
    (Ret None, mkWorld dir (transcripts w) (S (runs w)) (requests w),
     [EvPrint MsgDownloading; EvPrint (MsgUrl url); EvRun (YtDlpExtractAudio url);
      EvPrint (MsgDownloadFailed (CalledProcessError code))]).
Proof. apply download_failure_run. Qed.

(** X13 — Nothing new.  When [yt-dlp] exits with status zero and the set of
    [*.mp3] files has gained no element (the file was there already, or
    the tool produced something else), the result is [None]. *)
Theorem download_nothing_new_returns_none url w dir :
  yt_dlp_extract_audio env (runs w) url (downloads w) = (0, dir) →
  filter (λ name, PyPath.is_mp3 name) (dom dir) ⊆
    filter (λ name, PyPath.is_mp3 name) (dom (downloads w)) →
  run (download_audio_if_needed env url) w =
    (Ret None, mkWorld dir (transcripts w) (S (runs w)) (requests w),
     [EvPrint MsgDownloading; EvPrint (MsgUrl url); EvRun (YtDlpExtractAudio url);
      EvPrint MsgNoNewFile]).
Proof. apply download_nothing_new_run. Qed.

(** X14 — The download of one video always returns.  Whatever the status
    [yt-dlp] exits with and whatever it leaves in the directory,
    [download_audio_if_needed] neither raises nor exits; it runs the
    tool once, touches neither the transcripts nor the count of requests,
    and a file it returns is a [*.mp3] that is in the download directory
    now and was not before. *)
Theorem download_audio_always_returns url w :
  ∃ file,
    let r := run (download_audio_if_needed env url) w in
    result_of r = Ret file ∧
    world_of r = after_download env url w ∧
    filter (λ e, is_run e) (events_of r) = [EvRun (YtDlpExtractAudio url)] ∧
    ∀ name, file = Some name →
      PyPath.is_mp3 name ∧
      name ∈ dom (downloads (world_of r)) ∧
      name ∉ dom (downloads w).
Proof.
  destruct (download_audio_if_needed_run url w) as (file & evs & Hrun & Hruns & Hfile).
  exists file. cbv zeta. by rewrite Hrun.
Qed.

(** X15 — The download loop goes through every URL.  No download makes it
    stop: it returns after one run of [yt-dlp] per URL, in the order of
    the list, with at most one new file per URL added to the files it
    started with, and without touching the transcripts or sending a
    request. *)
Theorem download_loop_runs_every_url n downloaded_files i urls w :
  ∃ files,
    let r := run (download_loop env n downloaded_files i urls) w in
    result_of r = Ret (downloaded_files ++ files) ∧
    (length files ≤ length urls)%nat ∧
    filter (λ e, is_run e) (events_of r) =
      (λ url, EvRun (YtDlpExtractAudio url)) <$> urls ∧
    runs (world_of r) = (runs w + length urls)%nat ∧
    transcripts (world_of r) = transcripts w ∧
    requests (world_of r) = requests w.
Proof.
  destruct (download_loop_run n urls downloaded_files i w)
    as (files & evs & Hrun & Hlen & Hruns).
  destruct (after_downloads_world urls w) as (Htr & Hreq & Hcount).
  exists files. cbv zeta. rewrite Hrun. by cbn [result_of world_of events_of fst snd].
Qed.

End Downloads.

Lemma download_failure_returns_none_witness :
  let dir : gmap string Z := {[ "talk.mp3"%string := 2000; "half.mp3"%string := 10 ]} in
  run (download_audio_if_needed (download_env 1 dir) "https://youtu.be/a1") one_file =
    (Ret None, mkWorld dir ∅ 1 0,
     [EvPrint MsgDownloading; EvPrint (MsgUrl "https://youtu.be/a1");
      EvRun (YtDlpExtractAudio "https://youtu.be/a1");
      EvPrint (MsgDownloadFailed (CalledProcessError 1))]).
Proof.
  apply (download_failure_returns_none
           (download_env 1 {[ "talk.mp3"%string := 2000; "half.mp3"%string := 10 ]})
           "https://youtu.be/a1" one_file 1).
  - reflexivity.
  - lia.
Defined.

Lemma download_nothing_new_returns_none_witness :
  run (download_audio_if_needed (download_env 0 (downloads one_file))
         "https://youtu.be/a1") one_file =
    (Ret None, mkWorld (downloads one_file) ∅ 1 0,
     [EvPrint MsgDownloading; EvPrint (MsgUrl "https://youtu.be/a1");
      EvRun (YtDlpExtractAudio "https://youtu.be/a1");
      EvPrint MsgNoNewFile]).
Proof.
  apply (download_nothing_new_returns_none (download_env 0 (downloads one_file))
           "https://youtu.be/a1" one_file (downloads one_file)).
  - reflexivity.
  - done.
Defined.

(** ** More on the transcription loop *)

Lemma count_events_cons_false p e evs :
  p e = false → count_events p (e :: evs) = count_events p evs.
Proof.
  intros He. unfold count_events.
  by rewrite filter_cons_False by (rewrite He; exact id).
Qed.

Section LoopExtras.

Variable env : Env.
Variable delay total : Z.

Lemma resume_run files : ∀ c i w,
  Forall (λ file, is_Some (transcripts w !! transcript_name file)) files →
  ∃ evs,
    run (transcription_loop env delay total c i files) w =
      (Ret (mkCounters (transcribed_count c)
              (skipped_count c + Z.of_nat (length files))), w, evs) ∧
    Forall (λ e, is_print e) evs.
Proof.
  induction files as [|file rest IH]; intros c i w Hdone.
  - exists []. destruct c. cbn. rewrite Z.add_0_r. done.
  - apply Forall_cons in Hdone as [Hfile Hrest].
    destruct (IH (count_skipped c) (i + 1) w Hrest) as (evs & Hrun & Hevs).
    rewrite transcription_loop_cons. cbv zeta. unfold run in *.
    rewrite process_audio_run. cbv zeta.
    rewrite bool_decide_eq_true_2 by done.
    cbn [result_of world_of events_of fst snd]. rewrite Hrun, after_triple.
    eexists. split.
    + cbn [count_skipped transcribed_count skipped_count length].
      replace (skipped_count c + Z.of_nat (S (length rest)))
        with (skipped_count c + 1 + Z.of_nat (length rest)) by lia.
      reflexivity.
    + by repeat constructor.
Qed.

(** An iteration sends at most [default_max_retries] requests and counts
    them in the world. *)
Lemma process_audio_requests c i mp3_file w :
  let r := run (process_audio env delay total c i mp3_file) w in
  requests (world_of r) =
    (requests w + count_events is_api_call (events_of r))%nat ∧
  (count_events is_api_call (events_of r) ≤ Z.to_nat default_max_retries)%nat.
Proof.
  cbv zeta. unfold run. rewrite process_audio_run. cbv zeta.
  destruct (bool_decide (is_Some _)).
  { cbn [world_of events_of fst snd].
    rewrite !count_events_cons_false by reflexivity.
    change (count_events is_api_call []) with 0%nat. lia. }
  destruct (transcribe_audio_run env mp3_file default_max_retries w)
    as (text & n & evs & Hrun & Hn & Hcount & _).
  rewrite Hrun. run_monad.
  destruct (text_truthy text);
    [destruct (write_text_error env _ _ _) as [[kind msg]|];
     [|destruct (i <? total); [destruct (delay <? 0)|]]|];
    cbn [world_of events_of fst snd requests with_transcript add_requests];
    repeat first [ rewrite count_events_app
                 | rewrite count_events_cons_false by reflexivity ];
    change (count_events is_api_call []) with 0%nat; lia.
Qed.

Lemma loop_requests files : ∀ c i w,
  let r := run (transcription_loop env delay total c i files) w in
  requests (world_of r) =
    (requests w + count_events is_api_call (events_of r))%nat ∧
  (count_events is_api_call (events_of r) ≤
     Z.to_nat default_max_retries * length files)%nat.
Proof.
  induction files as [|file rest IH]; intros c i w; [cbn; lia|].
  cbv zeta. rewrite transcription_loop_cons. cbv zeta.
  pose proof (process_audio_requests c i file w) as [Hreq Hmax]. cbv zeta in *.
  destruct (result_of (run (process_audio _ _ _ _ _ _) _)) as [c'|e|code];
    cbn [world_of events_of fst snd length]; [|lia..].
  destruct (IH c' (i + 1) (world_of (run (process_audio env delay total c i file) w)))
    as [Hreq' Hmax'].
  unfold after; cbn [world_of events_of fst snd].
  rewrite count_events_app. fold (world_of (run (transcription_loop env delay total c'
    (i + 1) rest) (world_of (run (process_audio env delay total c i file) w)))).
  unfold world_of, events_of in *. lia.
Qed.

(** A request the loop sends is for a file of its list. *)
Lemma loop_requests_are_listed files file : ∀ c i w,
  EvApiCall file ∈ events_of (run (transcription_loop env delay total c i files) w) →
  file ∈ files.
Proof.
  induction files as [|mp3_file rest IH]; intros c i w.
  { by intros ?%not_elem_of_nil. }
  rewrite transcription_loop_cons. cbv zeta.
  assert (Hitem : EvApiCall file ∈
            events_of (run (process_audio env delay total c i mp3_file) w) →
            file = mp3_file).
  { intros Hin. destruct (String.eqb mp3_file file) eqn:Heq.
    { by apply String.eqb_eq in Heq. }
    apply (filter_nil_not_elem (is_api_call_for file)) in Hin.
    { cbn in Hin. by rewrite String.eqb_refl in Hin. }
    apply process_audio_silent.
    - intros e He. destruct e as [m|cmd|f|site secs|f t|path]; try done.
      cbn in *. apply Is_true_true, String.eqb_eq in He as ->. exact Heq.
    - intros e He. by destruct e. }
  destruct (result_of (run (process_audio _ _ _ _ _ _) _)) as [c'|e|code];
    cbn [events_of snd].
  - unfold after; cbn [events_of snd]. rewrite elem_of_app. intros [Hin|Hin].
    + rewrite (Hitem Hin). apply list_elem_of_here.
    + apply list_elem_of_further. by eapply IH.
  - intros Hin. rewrite (Hitem Hin). apply list_elem_of_here.
  - intros Hin. rewrite (Hitem Hin). apply list_elem_of_here.
Qed.

(** A request for [file] is a request. *)
Lemma count_requests_for_le file evs :
  (count_events (is_api_call_for file) evs ≤ count_events is_api_call evs)%nat.
Proof.
  unfold count_events. induction evs as [|e evs IH]; [done|].
  rewrite !filter_cons.
  destruct e as [m|cmd|f|site secs|f t|path]; cbn; try done.
  destruct (String.eqb f file); cbn; repeat case_decide; cbn; try done; lia.
Qed.

(** An iteration sends no request for another file than its own. *)
Lemma process_audio_requests_for c i mp3_file w file :
  file ≠ mp3_file →
  filter (λ e, is_api_call_for file e)
    (events_of (run (process_audio env delay total c i mp3_file) w)) = [].
Proof.
  intros Hne. apply process_audio_silent.
  - intros e He. destruct e as [m|cmd|f|site secs|f t|path]; try done.
    cbn in *. apply Is_true_true, String.eqb_eq in He as ->.
    by apply String.eqb_neq.
  - intros e He. by destruct e.
Qed.

(** The loop sends no request for a file that is not in its list. *)
Lemma loop_requests_unlisted files file c i w :
  file ∉ files →
  filter (λ e, is_api_call_for file e)
    (events_of (run (transcription_loop env delay total c i files) w)) = [].
Proof.
  intros Hout.
  destruct (filter _ _) as [|e evs] eqn:Hfilter; [done|].
  assert (Hin : e ∈ filter (λ e, is_api_call_for file e)
                  (events_of (run (transcription_loop env delay total c i files) w)))
    by (rewrite Hfilter; apply list_elem_of_here).
  apply list_elem_of_filter in Hin as [He Hin].
  destruct e as [m|cmd|f|site secs|f t|path]; try done.
  cbn in He. apply Is_true_true, String.eqb_eq in He as ->.
  destruct Hout. by eapply loop_requests_are_listed.
Qed.

(** Over a list without repetition, at most [default_max_retries]
    requests are for any one file. *)
Lemma loop_requests_per_file files file : ∀ c i w,
  NoDup files →
  (count_events (is_api_call_for file)
     (events_of (run (transcription_loop env delay total c i files) w)) ≤
   Z.to_nat default_max_retries)%nat.
Proof.
  induction files as [|mp3_file rest IH]; intros c i w Hnodup; [cbn; lia|].
  apply NoDup_cons in Hnodup as [Hfresh Hnodup].
  rewrite transcription_loop_cons. cbv zeta.
  pose proof (process_audio_requests c i mp3_file w) as [_ Hmax]. cbv zeta in Hmax.
  pose proof (count_requests_for_le file
                (events_of (run (process_audio env delay total c i mp3_file) w)))
    as Hle.
  destruct (result_of (run (process_audio _ _ _ _ _ _) _)) as [c'|e|code];
    cbn [events_of snd]; [|lia..].
  unfold after; cbn [events_of snd]. rewrite count_events_app.
  destruct (decide (file = mp3_file)) as [->|Hne].
  - unfold count_events at 2.
    rewrite (loop_requests_unlisted rest mp3_file) by done. cbn [length]. lia.
  - unfold count_events at 1.
    rewrite (process_audio_requests_for c i mp3_file w file Hne). cbn [length].
    by apply IH.
Qed.

End LoopExtras.

(** The audio files of the transcription phase are listed once each. *)
Lemma mp3_files_NoDup w : NoDup (mp3_files w).
Proof.
  unfold mp3_files. rewrite merge_sort_Permutation. apply NoDup_elements.
Qed.

(** The requests of the transcription phase are those of its loop. *)
Lemma transcription_phase_requests env args w file :
  let r := run (transcription_phase env args) w in
  (count_events (is_api_call_for file) (events_of r) ≤ 3)%nat ∧
  requests (world_of r) =
    (requests w + count_events is_api_call (events_of r))%nat.
Proof.
  cbv zeta. rewrite transcription_phase_run. cbv zeta.
  pose proof (loop_requests env (delay args) (Z.of_nat (length (mp3_files w)))
                (mp3_files w) (mkCounters 0 0) 1 w) as [Hreq _].
  pose proof (loop_requests_per_file env (delay args)
                (Z.of_nat (length (mp3_files w))) (mp3_files w) file
                (mkCounters 0 0) 1 w (mp3_files_NoDup w)) as Hfile.
  cbv zeta in Hreq. change (Z.to_nat default_max_retries) with 3%nat in Hfile.
  destruct (result_of (run (transcription_loop _ _ _ _ _ _) _)) as [c|e|code];
    cbn [world_of events_of fst snd];
    rewrite !count_events_cons_false by reflexivity;
    rewrite ?count_events_app;
    change (count_events is_api_call (summary_events _ _ _ _ _)) with 0%nat;
    change (count_events (is_api_call_for file) (summary_events _ _ _ _ _)) with 0%nat;
    unfold world_of, events_of in *; lia.
Qed.

(** When the first answer is a text, [transcribe_audio] is one request. *)
Lemma transcribe_audio_text_run env file_path max_retries w text :
  0 < max_retries →
  is_Some (downloads w !! file_path) →
  whisper env (requests w) file_path = ApiText text →
  transcribe_audio env file_path max_retries w =
    (Ret (Some text), bump_requests w,
     [EvPrint (MsgTranscribing file_path); EvPrint MsgSending; EvApiCall file_path;
      EvPrint (MsgComplete (Z.of_nat (length (PyStr.split text))))]).
Proof.
  intros Hmax [size Hfile] Htext. unfold transcribe_audio. rewrite bind_run. run_monad.
  destruct (Z.to_nat max_retries) as [|todo] eqn:Htodo; [lia|].
  by rewrite transcribe_attempts_step, Hfile, Htext by done.
Qed.

(** X16 — Resuming a finished run.  When every audio file of the list has
    its transcript, the loop only prints: no request, no sleep, no write,
    the world as it was, and every file counted as skipped. *)
Theorem resume_sends_nothing env delay total files c i w :
  Forall (λ file, is_Some (transcripts w !! transcript_name file)) files →
  ∃ evs,
    run (transcription_loop env delay total c i files) w =
      (Ret (mkCounters (transcribed_count c)
              (skipped_count c + Z.of_nat (length files))), w, evs) ∧
    Forall (λ e, is_print e) evs.
Proof. apply resume_run. Qed.

Lemma resume_sends_nothing_witness :
  let w := two_files {[ "intro.txt"%string := "one"%string;
                        "talk.txt"%string := "two"%string ]} in
  ∃ evs,
    run (transcription_loop (sample_env service_up) 5 2 (mkCounters 0 0) 1
           ["intro.mp3"; "talk.mp3"]%string) w =
      (Ret (mkCounters 0 (0 + Z.of_nat 2)), w, evs) ∧
    Forall (λ e, is_print e) evs.
Proof.
  apply (resume_sends_nothing (sample_env service_up) 5 2
           ["intro.mp3"; "talk.mp3"]%string (mkCounters 0 0) 1).
  repeat constructor; eexists; reflexivity.
Defined.

(** X17 — The requests of the transcription phase are bounded and
    counted.  For any one audio file the phase sends at most three
    requests, and the count of requests in the world grows by the number
    of requests in its trace, also when the phase is cut short. *)
Theorem at_most_three_requests_per_file env args w file :
  let r := run (transcription_phase env args) w in
  (count_events (is_api_call_for file) (events_of r) ≤ 3)%nat ∧
  requests (world_of r) =
    (requests w + count_events is_api_call (events_of r))%nat.
Proof. apply transcription_phase_requests. Qed.

(** X18 — What is sent to the service.  A request of the transcription
    phase is for a [*.mp3] file of the download directory that had no
    transcript when the phase started. *)
Theorem requests_only_for_pending_audio env args w file :
  EvApiCall file ∈ events_of (run (transcription_phase env args) w) →
  PyPath.is_mp3 file ∧
  file ∈ dom (downloads w) ∧
  transcripts w !! transcript_name file = None.
Proof.
  rewrite transcription_phase_run. cbv zeta. intros Hin.
  assert (Hloop : EvApiCall file ∈
            events_of (run (transcription_loop env (delay args)
                              (Z.of_nat (length (mp3_files w))) (mkCounters 0 0) 1
                              (mp3_files w)) w)).
  { destruct (result_of (run (transcription_loop _ _ _ _ _ _) _)) as [c|e|code];
      cbn [events_of snd] in Hin.
    - rewrite elem_of_cons, elem_of_app in Hin.
      destruct Hin as [Hin|[Hin|Hin]]; [done|done|].
      unfold summary_events in Hin. rewrite !elem_of_cons in Hin.
      destruct Hin as [Hin|[Hin|[Hin|[Hin|[Hin|[Hin|[Hin|Hin]]]]]]]; try done.
      by apply not_elem_of_nil in Hin.
    - rewrite elem_of_cons in Hin. by destruct Hin.
    - rewrite elem_of_cons in Hin. by destruct Hin. }
  pose proof (loop_requests_are_listed _ _ _ _ _ _ _ _ Hloop) as Hfile.
  unfold mp3_files in Hfile. rewrite merge_sort_Permutation in Hfile.
  apply elem_of_elements, elem_of_filter in Hfile as [Hmp3 Hdom].
  split; [done|]. split; [done|].
  destruct (transcripts w !! transcript_name file) as [text|] eqn:Hdone; [|done].
  apply (filter_nil_not_elem (is_api_call_for file)) in Hloop.
  - cbn in Hloop. by rewrite String.eqb_refl in Hloop.
  - apply loop_no_request_for. by exists text.
Qed.

Lemma requests_only_for_pending_audio_witness :
  PyPath.is_mp3 "talk.mp3" ∧
  "talk.mp3"%string ∈ dom (downloads one_file) ∧
  transcripts one_file !! transcript_name "talk.mp3" = None.
Proof.
  apply (requests_only_for_pending_audio (sample_env service_up) sample_args one_file).
  vm_compute. repeat constructor.
Defined.

(** X19 — An empty text is no transcript.  When the service answers with
    the empty text, [if text:] takes it like [None]: nothing is written,
    the file is counted as skipped, and no pacing delay is slept. *)
Theorem empty_text_counts_as_skipped env delay total c i mp3_file w :
  transcripts w !! transcript_name mp3_file = None →
  is_Some (downloads w !! mp3_file) →
  whisper env (requests w) mp3_file = ApiText "" →
  run (process_audio env delay total c i mp3_file) w =
    (Ret (mkCounters (transcribed_count c) (skipped_count c + 1)),
     bump_requests w,
     [EvPrint (MsgProcessingAudio i total mp3_file);
      EvPrint (MsgTranscribing mp3_file); EvPrint MsgSending; EvApiCall mp3_file;
      EvPrint (MsgComplete 0);
      EvPrint (MsgSkippedTranscription mp3_file)]).
Proof.
  intros Hnone Hfile Htext. unfold run. rewrite process_audio_run. cbv zeta.
  rewrite bool_decide_eq_false_2 by (rewrite Hnone; by intros [? ?]).
  by rewrite (transcribe_audio_text_run env mp3_file default_max_retries w ""
        eq_refl Hfile Htext).
Qed.

Lemma empty_text_counts_as_skipped_witness :
  run (process_audio (sample_env service_silent) 5 1 (mkCounters 0 0) 1 "talk.mp3")
    one_file =
    (Ret (mkCounters 0 1), bump_requests one_file,
     [EvPrint (MsgProcessingAudio 1 1 "talk.mp3");
      EvPrint (MsgTranscribing "talk.mp3"); EvPrint MsgSending; EvApiCall "talk.mp3";
      EvPrint (MsgComplete 0);
      EvPrint (MsgSkippedTranscription "talk.mp3")]).
Proof.
  apply (empty_text_counts_as_skipped (sample_env service_silent) 5 1
           (mkCounters 0 0) 1 "talk.mp3" one_file).
  - reflexivity.
  - exists 2000. reflexivity.
  - reflexivity.
Defined.



(** ** Names and messages *)

Lemma string_app_cons c s t : String c s +:+ t = String c (s +:+ t).
Proof. reflexivity. Qed.

Lemma string_length_app s t :
  String.length (s +:+ t) = (String.length s + String.length t)%nat.
Proof. induction s as [|c s IH]; [done|]. rewrite string_app_cons. cbn. by rewrite IH. Qed.

Lemma string_take_app s t : PyStr.take (String.length s) (s +:+ t) = s.
Proof.
  unfold PyStr.take. induction s as [|c s IH].
  - by destruct t.
  - rewrite string_app_cons. cbn. by rewrite IH.
Qed.

Lemma string_rev_app_app s t acc :
  String.rev_app (s +:+ t) acc = String.rev_app t (String.rev_app s acc).
Proof.
  revert acc. induction s as [|c s IH]; intros acc; [done|].
  rewrite string_app_cons. cbn. apply IH.
Qed.

Lemma rfind_dot_mp3 s : ∀ pos last,
  PyStr.rfind_dot_go (s +:+ ".mp3") pos last = Some (pos + String.length s)%nat.
Proof.
  induction s as [|c s IH]; intros pos last.
  - rewrite Nat.add_0_r. reflexivity.
  - rewrite string_app_cons. cbn [PyStr.rfind_dot_go String.length].
    rewrite IH. f_equal. lia.
Qed.

Lemma string_prefix_app s t : String.prefix s (s +:+ t) = true.
Proof.
  induction s as [|c s IH]; [by destruct t|].
  rewrite string_app_cons. cbn. by destruct (ascii_dec c c).
Qed.

Lemma lower_app s t : PyStr.lower (s +:+ t) = PyStr.lower s +:+ PyStr.lower t.
Proof.
  induction s as [|c s IH]; [done|].
  rewrite string_app_cons. cbn. by rewrite IH.
Qed.

Lemma contains_app pre sub post : PyStr.contains sub (pre +:+ sub +:+ post) = true.
Proof.
  induction pre as [|c pre IH].
  - change ("" +:+ sub +:+ post) with (sub +:+ post).
    pose proof (string_prefix_app sub post) as Hprefix.
    destruct (sub +:+ post); cbn [PyStr.contains]; by rewrite Hprefix.
  - rewrite string_app_cons. cbn [PyStr.contains]. rewrite IH. apply orb_true_r.
Qed.

(** X21 — From the audio file to its transcript.  For a stem that is not
    empty, [stem.mp3] is matched by the pattern [*.mp3] and its
    transcript is [stem.txt], whatever dots the stem has. *)
Theorem transcript_name_of_mp3 stem :
  stem ≠ ""%string →
  PyPath.is_mp3 (stem +:+ ".mp3") = true ∧
  transcript_name (stem +:+ ".mp3") = stem +:+ ".txt".
Proof.
  intros Hstem. split.
  - unfold PyPath.is_mp3, PyStr.endswith, String.rev.
    rewrite string_rev_app_app. generalize (String.rev_app stem ""). intros rest.
    destruct rest; vm_compute; reflexivity.
  - unfold transcript_name, PyPath.stem, PyStr.rfind_dot.
    rewrite rfind_dot_mp3, string_length_app. cbn [Nat.add String.length].
    assert (Hlen : (0 < String.length stem)%nat) by (destruct stem; [done|cbn; lia]).
    replace (0 <? String.length stem)%nat with true
      by (symmetry; apply Nat.ltb_lt; lia).
    replace (String.length stem <? String.length stem + 4 - 1)%nat with true
      by (symmetry; apply Nat.ltb_lt; lia).
    cbn [andb]. by rewrite string_take_app.
Qed.

Lemma transcript_name_of_mp3_witness :
  PyPath.is_mp3 ("My.Talk_v1.0" +:+ ".mp3") = true ∧
  transcript_name ("My.Talk_v1.0" +:+ ".mp3") = ("My.Talk_v1.0" +:+ ".txt")%string.
Proof. apply (transcript_name_of_mp3 "My.Talk_v1.0"). discriminate. Defined.

(** X22 — The quota test ignores the case.  A message that holds
    [insufficient_quota] in any mix of upper and lower case, with
    anything before and after, is taken as quota exhaustion. *)
Theorem quota_test_ignores_case pre word post :
  PyStr.lower word = "insufficient_quota"%string →
  is_quota_message (pre +:+ word +:+ post) = true.
Proof.
  intros Hword. unfold is_quota_message.
  rewrite !lower_app, Hword. apply contains_app.
Qed.

Lemma quota_test_ignores_case_witness :
  is_quota_message ("Error 429 (" +:+ "Insufficient_QUOTA" +:+ "): check billing") = true.
Proof.
  apply (quota_test_ignores_case "Error 429 (" "Insufficient_QUOTA" "): check billing").
  reflexivity.
Defined.

(** ** What the two phases of [main] leave alone *)

Section Confined.

Context {X : Type} (f : World → X) (p : Event → bool).

Lemma confined_ret {A} (a : A) : confined f p (mret a).
Proof. by intros w. Qed.

Lemma confined_raise {A} e : confined f p (raise e : M A).
Proof. by intros w. Qed.

Lemma confined_sys_exit {A} code : confined f p (sys_exit code : M A).
Proof. by intros w. Qed.

Lemma confined_lift {A} (r : Result A) : confined f p (lift r).
Proof. by intros w. Qed.

Lemma confined_get_world : confined f p get_world.
Proof. by intros w. Qed.

Lemma confined_emit e : p e = false → confined f p (emit e).
Proof.
  intros He w. split; [done|]. unfold run, emit, events_of; cbn [snd].
  rewrite filter_cons_False by (rewrite He; exact id). reflexivity.
Qed.

Lemma confined_print m : p (EvPrint m) = false → confined f p (print m).
Proof. apply confined_emit. Qed.

Lemma confined_bind {A B} (m : M A) (k : A → M B) :
  confined f p m → (∀ a, confined f p (k a)) → confined f p (m ≫= k).
Proof.
  intros Hm Hk w. unfold run. rewrite bind_run.
  destruct (Hm w) as [Hw Ht]. unfold run in Hw, Ht.
  destruct (m w) as [[[a|e|code] w1] t1]; [|done..].
  destruct (Hk a w1) as [Hw' Ht']. unfold run in Hw', Ht'.
  unfold after; cbn [world_of events_of fst snd] in *.
  split; [congruence|]. by rewrite filter_app, Ht, Ht'.
Qed.

Lemma confined_try_except {A} (body : M A) handler :
  confined f p body →
  (∀ e h, handler e = Some h → confined f p h) →
  confined f p (try_except body handler).
Proof.
  intros Hbody Hhandler w. unfold run, try_except.
  destruct (Hbody w) as [Hw Ht]. unfold run in Hw, Ht.
  destruct (body w) as [[[a|e|code] w1] t1]; [done| |done].
  destruct (handler e) as [h|] eqn:Hh; [|done].
  destruct (Hhandler e h Hh w1) as [Hw' Ht']. unfold run in Hw', Ht'.
  destruct (h w1) as [[r w2] t2]. cbn [world_of events_of fst snd] in *.
  split; [congruence|]. by rewrite filter_app, Ht, Ht'.
Qed.

End Confined.

Section NeverExits.

Lemma never_exits_ret {A} (a : A) : never_exits (mret a).
Proof. by intros w code. Qed.

Lemma never_exits_raise {A} e : never_exits (raise e : M A).
Proof. by intros w code. Qed.

Lemma never_exits_get_world : never_exits get_world.
Proof. by intros w code. Qed.

Lemma never_exits_put_world w' : never_exits (put_world w').
Proof. by intros w code. Qed.

Lemma never_exits_emit e : never_exits (emit e).
Proof. by intros w code. Qed.

Lemma never_exits_print m : never_exits (print m).
Proof. by intros w code. Qed.

Lemma never_exits_bind {A B} (m : M A) (k : A → M B) :
  never_exits m → (∀ a, never_exits (k a)) → never_exits (m ≫= k).
Proof.
  intros Hm Hk w code. unfold run. rewrite bind_run.
  specialize (Hm w). unfold run in Hm.
  destruct (m w) as [[[a|e|code'] w1] t1]; cbn [result_of fst snd] in *;
    [|done|by destruct (Hm code')].
  unfold after; cbn [result_of fst snd]. apply Hk.
Qed.

Lemma never_exits_try_except {A} (body : M A) handler :
  never_exits body →
  (∀ e h, handler e = Some h → never_exits h) →
  never_exits (try_except body handler).
Proof.
  intros Hbody Hhandler w code. unfold run, try_except.
  specialize (Hbody w). unfold run in Hbody.
  destruct (body w) as [[[a|e|code'] w1] t1]; cbn [result_of fst snd] in *;
    [done| |by destruct (Hbody code')].
  destruct (handler e) as [h|] eqn:Hh; [|done].
  specialize (Hhandler e h Hh w1 code). unfold run in Hhandler.
  by destruct (h w1) as [[r w2] t2].
Qed.

Lemma tame_never_exits {A} (m : M A) : stays_tame m → never_exits m.
Proof.
  intros Hm w code Hexit. specialize (Hm w). by rewrite Hexit in Hm.
Qed.

Lemma tame_ret {A} (a : A) : stays_tame (mret a).
Proof. by intros w. Qed.

Lemma tame_raise {A} kind msg : stays_tame (raise (OtherException kind msg) : M A).
Proof. by intros w. Qed.

Lemma tame_lift {A} (r : Result A) : tame r → stays_tame (lift r).
Proof. by intros Hr w. Qed.

Lemma tame_emit e : stays_tame (emit e).
Proof. by intros w. Qed.

Lemma tame_print m : stays_tame (print m).
Proof. by intros w. Qed.

Lemma tame_bind {A B} (m : M A) (k : A → M B) :
  stays_tame m → (∀ a, stays_tame (k a)) → stays_tame (m ≫= k).
Proof.
  intros Hm Hk w. unfold run. rewrite bind_run.
  specialize (Hm w). unfold run in Hm.
  destruct (m w) as [[[a|e|code] w1] t1]; cbn [result_of fst snd] in *; [|done..].
  unfold after; cbn [result_of fst snd]. apply Hk.
Qed.

Lemma tame_try_except {A} (body : M A) handler :
  stays_tame body →
  (∀ e, tame (Raise e : Result A) → handler e = None) →
  stays_tame (try_except body handler).
Proof.
  intros Hbody Hhandler w. unfold run, try_except.
  specialize (Hbody w). unfold run in Hbody.
  destruct (body w) as [[[a|e|code] w1] t1]; cbn [result_of fst snd] in *;
    [done| |done].
  by rewrite (Hhandler e Hbody).
Qed.

End NeverExits.

Ltac confined_step :=
  first
    [ apply confined_ret | apply confined_raise | apply confined_sys_exit
    | apply confined_lift | apply confined_get_world
    | apply confined_print; reflexivity
    | apply confined_emit; reflexivity
    | apply confined_bind; [|intros ?]
    | apply confined_try_except; [|intros [] ? [= <-]]
    | match goal with
      | |- confined _ _ (if ?b then _ else _) => destruct b
      | |- confined _ _ (match ?x with _ => _ end) => destruct x
      end ].

Ltac never_exits_step :=
  first
    [ apply never_exits_ret | apply never_exits_raise
    | apply never_exits_get_world | apply never_exits_put_world
    | apply never_exits_print | apply never_exits_emit
    | apply never_exits_bind; [|intros ?]
    | apply never_exits_try_except; [|intros [] ? [= <-]]
    | match goal with
      | |- never_exits (if ?b then _ else _) => destruct b
      | |- never_exits (match ?x with _ => _ end) => destruct x
      end ].

Section Phases.

Variable env : Env.

(** *** The resolver *)

Lemma tame_get dict key dflt : tame (Py.get dict key dflt).
Proof. by destruct dict. Qed.

Lemma tame_iter v : tame (Py.iter v).
Proof. by destruct v. Qed.

Lemma tame_slice_to n v : tame (Py.slice_to n v).
Proof. by destruct v. Qed.

Lemma tame_len v : tame (Py.len v).
Proof. by destruct v. Qed.

Lemma tame_getitem v key : tame (Py.getitem v key).
Proof. destruct v as [| | | | |d]; try done. cbn. by destruct (Py.assoc key d). Qed.

Lemma tame_watch_urls entries :
  tame (mapM (λ entry, id ← Py.getitem entry "id"; mret (watch_url env id)) entries).
Proof.
  induction entries as [|entry rest IH]; [done|].
  cbn [mapM]. pose proof (tame_getitem entry "id") as Hid.
  destruct (Py.getitem entry "id") as [id|e|code]; [|done..].
  cbn. by destruct (mapM _ rest) as [urls|e|code].
Qed.

Ltac tame_step :=
  first
    [ apply tame_ret | apply tame_raise | apply tame_print | apply tame_emit
    | apply tame_lift;
      first [ apply tame_get | apply tame_iter | apply tame_slice_to
            | apply tame_len | apply tame_watch_urls ]
    | apply tame_bind; [|intros ?]
    | match goal with
      | |- stays_tame (if ?b then _ else _) => destruct b
      | |- stays_tame (match ?x with _ => _ end) => destruct x
      end ].

Lemma preview_tame entries : ∀ i, stays_tame (preview env i entries).
Proof.
  induction entries as [|entry rest IH]; intros i; cbn [preview];
    repeat tame_step. apply IH.
Qed.

Lemma get_video_list_tame url :
  (yt_dlp_flat_playlist env url).1 = 0 →
  stays_tame (get_video_list env url).
Proof.
  intros Hcode. unfold get_video_list, run_flat_playlist.
  destruct (yt_dlp_flat_playlist env url) as [code stdout]. cbn in Hcode. subst code.
  change (0 =? 0) with true.
  apply tame_bind; [apply tame_print|intros _].
  apply tame_bind; [apply tame_print|intros _].
  apply tame_try_except; [|by intros []].
  repeat first [apply preview_tame | tame_step].
Qed.

Lemma preview_confined {X} (f : World → X) entries : ∀ i,
  confined f is_transcription_effect (preview env i entries).
Proof.
  induction entries as [|entry rest IH]; intros i; cbn [preview];
    repeat confined_step. apply IH.
Qed.

Lemma get_video_list_confined {X} (f : World → X) url :
  confined f is_transcription_effect (get_video_list env url).
Proof.
  unfold get_video_list, run_flat_playlist.
  repeat first [apply preview_confined | confined_step].
Qed.

(** *** The download phase *)

Lemma run_extract_audio_confined url :
  confined requests is_transcription_effect (run_extract_audio env url).
Proof.
  intros w. unfold run, run_extract_audio. run_monad.
  destruct (yt_dlp_extract_audio env (runs w) url (downloads w)) as [code dir].
  by destruct (code =? 0).
Qed.

Lemma run_extract_audio_never_exits url : never_exits (run_extract_audio env url).
Proof.
  unfold run_extract_audio. repeat never_exits_step.
Qed.

Lemma download_audio_if_needed_confined url :
  confined requests is_transcription_effect
    (download_audio_if_needed env url).
Proof.
  unfold download_audio_if_needed, glob_mp3, set_pop, check_file_size, stat_size.
  repeat first [apply run_extract_audio_confined | confined_step].
Qed.

Lemma download_audio_if_needed_never_exits url :
  never_exits (download_audio_if_needed env url).
Proof.
  unfold download_audio_if_needed, glob_mp3, set_pop, check_file_size, stat_size.
  repeat first [apply run_extract_audio_never_exits | never_exits_step].
Qed.

Lemma download_loop_confined n video_urls : ∀ downloaded_files i,
  confined requests is_transcription_effect
    (download_loop env n downloaded_files i video_urls).
Proof.
  induction video_urls as [|url rest IH]; intros downloaded_files i;
    cbn [download_loop]; [apply confined_ret|].
  apply confined_bind; [|intros ?; apply IH].
  unfold download_step, glob_mp3.
  repeat first [apply download_audio_if_needed_confined | confined_step].
Qed.

Lemma download_loop_never_exits n video_urls : ∀ downloaded_files i,
  never_exits (download_loop env n downloaded_files i video_urls).
Proof.
  induction video_urls as [|url rest IH]; intros downloaded_files i;
    cbn [download_loop]; [apply never_exits_ret|].
  apply never_exits_bind; [|intros ?; apply IH].
  unfold download_step, glob_mp3.
  repeat first [apply download_audio_if_needed_never_exits | never_exits_step].
Qed.

Lemma download_phase_confined args :
  confined requests is_transcription_effect (download_phase env args).
Proof.
  unfold download_phase.
  repeat first [ apply get_video_list_confined | apply download_loop_confined
               | confined_step ].
Qed.

(** *** The transcription phase *)

Lemma write_text_confined transcript_file text :
  confined runs is_run (write_text env transcript_file text).
Proof.
  intros w. unfold run, write_text. run_monad.
  by destruct (write_text_error env _ _ _) as [[kind msg]|].
Qed.

Lemma transcriptions_create_confined file_path :
  confined runs is_run (transcriptions_create env file_path).
Proof.
  intros w. unfold run, transcriptions_create. run_monad.
  by destruct (whisper env (requests w) file_path).
Qed.

Lemma transcribe_attempts_confined file_path max_retries todo : ∀ attempt,
  confined runs is_run
    (transcribe_attempts env file_path max_retries todo attempt).
Proof.
  induction todo as [|todo IH]; intros attempt; cbn [transcribe_attempts];
    [apply confined_ret|].
  unfold open_rb, sleep.
  repeat first [ apply transcriptions_create_confined | apply IH | confined_step ].
Qed.

Lemma transcribe_attempts_never_exits file_path max_retries todo : ∀ attempt,
  never_exits (transcribe_attempts env file_path max_retries todo attempt).
Proof.
  induction todo as [|todo IH]; intros attempt; cbn [transcribe_attempts];
    [apply never_exits_ret|].
  unfold open_rb, sleep, transcriptions_create.
  repeat first [ apply IH | never_exits_step ].
Qed.

Lemma process_audio_confined delay total c i mp3_file :
  confined runs is_run (process_audio env delay total c i mp3_file).
Proof.
  unfold process_audio, transcript_exists, transcribe_audio, sleep.
  repeat first [ apply transcribe_attempts_confined | apply write_text_confined
               | confined_step ].
Qed.

Lemma process_audio_never_exits delay total c i mp3_file :
  never_exits (process_audio env delay total c i mp3_file).
Proof.
  unfold process_audio, transcript_exists, transcribe_audio, sleep, write_text.
  repeat first [ apply transcribe_attempts_never_exits | never_exits_step ].
Qed.

Lemma transcription_loop_confined delay total all_mp3_files : ∀ c i,
  confined runs is_run
    (transcription_loop env delay total c i all_mp3_files).
Proof.
  induction all_mp3_files as [|mp3_file rest IH]; intros c i;
    cbn [transcription_loop]; [apply confined_ret|].
  apply confined_bind; [apply process_audio_confined|intros ?; apply IH].
Qed.

Lemma transcription_loop_never_exits delay total all_mp3_files : ∀ c i,
  never_exits (transcription_loop env delay total c i all_mp3_files).
Proof.
  induction all_mp3_files as [|mp3_file rest IH]; intros c i;
    cbn [transcription_loop]; [apply never_exits_ret|].
  apply never_exits_bind; [apply process_audio_never_exits|intros ?; apply IH].
Qed.

Lemma transcription_phase_confined args :
  confined runs is_run (transcription_phase env args).
Proof.
  unfold transcription_phase, sorted_mp3, glob_mp3, print_summary.
  repeat first [ apply transcription_loop_confined | confined_step ].
Qed.

Lemma transcription_phase_never_exits args :
  never_exits (transcription_phase env args).
Proof.
  unfold transcription_phase, sorted_mp3, glob_mp3, print_summary.
  repeat first [ apply transcription_loop_never_exits | never_exits_step ].
Qed.

(** *** The ways out of [main] before the download loop *)

Lemma main_mkdir_failure_run args w kind msg :
  path_mkdir env "downloads" = None →
  path_mkdir env (output args) = Some (kind, msg) →
  run (main env args) w =
    (Raise (OtherException kind msg), w,
     [EvPrint MsgHeader; EvMkdir "downloads"; EvMkdir (output args)]).
Proof.
  intros Hdownloads Houtput. unfold run, main, download_phase, mkdir. run_monad.
  rewrite Hdownloads. run_monad. rewrite Houtput. by run_monad.
Qed.

Lemma main_client_failure_run args w :
  path_mkdir env "downloads" = None →
  path_mkdir env (output args) = None →
  openai_client env (api_key args) = false →
  run (main env args) w =
    (SysExit 1, w,
     [EvPrint MsgHeader; EvMkdir "downloads"; EvMkdir (output args);
      EvPrint (MsgFolder "Downloads" "downloads");
      EvPrint (MsgFolder "Transcripts" (output args));
      EvPrint MsgClientFailed]).
Proof.
  intros Hdownloads Houtput Hclient.
  unfold run, main, download_phase, mkdir. run_monad.
  rewrite Hdownloads. run_monad. rewrite Houtput. run_monad.
  rewrite Hclient. by run_monad.
Qed.

Lemma main_listing_failure_run args w code stdout :
  path_mkdir env "downloads" = None →
  path_mkdir env (output args) = None →
  openai_client env (api_key args) = true →
  yt_dlp_flat_playlist env (url args) = (code, stdout) →
  code ≠ 0 →
  run (main env args) w =
    (SysExit 1, w,
     [EvPrint MsgHeader; EvMkdir "downloads"; EvMkdir (output args);
      EvPrint (MsgFolder "Downloads" "downloads");
      EvPrint (MsgFolder "Transcripts" (output args));
      EvPrint MsgClientReady;
      EvPrint (MsgSection "GETTING VIDEO LIST"); EvPrint MsgAnalyzing;
      EvRun (YtDlpFlatPlaylist (url args));
      EvPrint (MsgListError (CalledProcessError code))]).
Proof.
  intros Hdownloads Houtput Hclient Hrun Hcode.
  unfold run, main, download_phase, mkdir, get_video_list, run_flat_playlist.
  run_monad. rewrite Hdownloads. run_monad. rewrite Houtput. run_monad.
  rewrite Hclient. run_monad. rewrite Hrun.
  replace (code =? 0) with false by lia. by run_monad.
Qed.

Lemma mkdir_never_exits path : never_exits (mkdir env path).
Proof.
  unfold mkdir. apply never_exits_bind; [apply never_exits_emit|intros _].
  destruct (path_mkdir env path) as [[kind msg]|];
    [apply never_exits_raise|apply never_exits_ret].
Qed.

(** A directory that cannot be made ends [main] with the exception of
    [mkdir], not with an exit status. *)
Lemma main_mkdir_never_exits args :
  path_mkdir env "downloads" ≠ None ∨ path_mkdir env (output args) ≠ None →
  never_exits (main env args).
Proof.
  intros Hmkdir w code. unfold run, main, download_phase, mkdir. run_monad.
  destruct (path_mkdir env "downloads") as [[kind msg]|]; run_monad; [done|].
  destruct (path_mkdir env (output args)) as [[kind msg]|]; run_monad; [done|].
  by destruct Hmkdir.
Qed.

Lemma download_phase_never_exits args :
  openai_client env (api_key args) = true →
  (yt_dlp_flat_playlist env (url args)).1 = 0 →
  never_exits (download_phase env args).
Proof.
  intros Hclient Hcode. unfold download_phase. rewrite Hclient.
  repeat first [ apply tame_never_exits, get_video_list_tame, Hcode
               | apply download_loop_never_exits | apply mkdir_never_exits
               | never_exits_step ].
Qed.

Lemma main_never_exits args :
  openai_client env (api_key args) = true →
  (yt_dlp_flat_playlist env (url args)).1 = 0 →
  never_exits (main env args).
Proof.
  intros Hclient Hcode. unfold main.
  apply never_exits_bind;
    [by apply download_phase_never_exits
    |intros _; apply transcription_phase_never_exits].
Qed.

End Phases.

(** ** The exits of [main] and what its two phases never do *)

(** X23 — No client, no run.  With the two directories made, when
    [OpenAI(api_key=...)] raises, [main] prints the failure and leaves
    through [sys.exit(1)] right after its opening lines: no command was
    run and no file of the two directories was touched. *)
Theorem main_stops_without_client env args w :
  path_mkdir env "downloads" = None →
  path_mkdir env (output args) = None →
  openai_client env (api_key args) = false →
  run (main env args) w =
    (SysExit 1, w,
     [EvPrint MsgHeader; EvMkdir "downloads"; EvMkdir (output args);
      EvPrint (MsgFolder "Downloads" "downloads");
      EvPrint (MsgFolder "Transcripts" (output args));
      EvPrint MsgClientFailed]).
Proof. apply main_client_failure_run. Qed.

Lemma main_stops_without_client_witness :
  run (main no_client_env sample_args) one_file =
    (SysExit 1, one_file,
     [EvPrint MsgHeader; EvMkdir "downloads"; EvMkdir "transcriptions";
      EvPrint (MsgFolder "Downloads" "downloads");
      EvPrint (MsgFolder "Transcripts" "transcriptions");
      EvPrint MsgClientFailed]).
Proof.
  apply (main_stops_without_client no_client_env sample_args one_file);
    reflexivity.
Defined.

(** X24 — A failed listing ends the run.  With the two directories made
    and a client, when [yt-dlp] exits from the listing with a status that
    is not zero, [main] leaves through [sys.exit(1)] from
    [get_video_list]: the listing is the only command run, nothing is
    downloaded or transcribed and no file of the two directories was
    touched. *)
Theorem main_stops_when_listing_fails env args w code stdout :
  path_mkdir env "downloads" = None →
  path_mkdir env (output args) = None →
  openai_client env (api_key args) = true →
  yt_dlp_flat_playlist env (url args) = (code, stdout) →
  code ≠ 0 →
  run (main env args) w =
    (SysExit 1, w,
     [EvPrint MsgHeader; EvMkdir "downloads"; EvMkdir (output args);
      EvPrint (MsgFolder "Downloads" "downloads");
      EvPrint (MsgFolder "Transcripts" (output args));
      EvPrint MsgClientReady;
      EvPrint (MsgSection "GETTING VIDEO LIST"); EvPrint MsgAnalyzing;
      EvRun (YtDlpFlatPlaylist (url args));
      EvPrint (MsgListError (CalledProcessError code))]).
Proof. apply main_listing_failure_run. Qed.

Lemma main_stops_when_listing_fails_witness :
  run (main (listing_env 1 None) sample_args) one_file =
    (SysExit 1, one_file,
     [EvPrint MsgHeader; EvMkdir "downloads"; EvMkdir "transcriptions";
      EvPrint (MsgFolder "Downloads" "downloads");
      EvPrint (MsgFolder "Transcripts" "transcriptions");
      EvPrint MsgClientReady;
      EvPrint (MsgSection "GETTING VIDEO LIST"); EvPrint MsgAnalyzing;
      EvRun (YtDlpFlatPlaylist "https://www.youtube.com/playlist?list=PL1");
      EvPrint (MsgListError (CalledProcessError 1))]).
Proof.
  apply (main_stops_when_listing_fails (listing_env 1 None) sample_args
           one_file 1 "listing"); [reflexivity..|lia].
Defined.

(** X25 — The exit status of the script.  With its arguments parsed,
    [main] leaves through [sys.exit] exactly when the two directories
    were made and then the client could not be created or the listing of
    [yt-dlp] failed, and always with status 1: a directory that cannot be
    made, a failed download and a failed transcription do not end the
    process through [sys.exit]. *)
Theorem main_exit_status env args w code :
  result_of (run (main env args) w) = SysExit code ↔
  code = 1 ∧
  path_mkdir env "downloads" = None ∧
  path_mkdir env (output args) = None ∧
  (openai_client env (api_key args) = false ∨
   (yt_dlp_flat_playlist env (url args)).1 ≠ 0).
Proof.
  destruct (path_mkdir env "downloads") as [failure|] eqn:Hdownloads.
  { split; [|by intros (_ & ? & _)].
    intros Hexit. destruct (main_mkdir_never_exits env args) with w code;
      [left; by rewrite Hdownloads|done]. }
  destruct (path_mkdir env (output args)) as [failure|] eqn:Houtput.
  { split; [|by intros (_ & _ & ? & _)].
    intros Hexit. destruct (main_mkdir_never_exits env args) with w code;
      [right; by rewrite Houtput|done]. }
  destruct (openai_client env (api_key args)) eqn:Hclient.
  - destruct (yt_dlp_flat_playlist env (url args)) as [c stdout] eqn:Hrun.
    destruct (decide (c = 0)) as [->|Hc].
    + split.
      * intros Hexit. destruct (main_never_exits env args Hclient) with w code;
          [by rewrite Hrun|done].
      * by intros (_ & _ & _ & [|]).
    + rewrite (main_listing_failure_run env args w c stdout
                 Hdownloads Houtput Hclient Hrun Hc).
      cbn. split; [intros [= <-]; auto|by intros [-> _]].
  - rewrite (main_client_failure_run env args w Hdownloads Houtput Hclient).
    cbn. split; [intros [= <-]; auto|by intros [-> _]].
Qed.

(** X26 — The download phase leaves the transcriber alone.  Whatever
    [yt-dlp] does, [main] up to its download summary sends no request,
    writes no transcript and never sleeps; the count of the requests is
    as it was. *)
Theorem download_phase_sends_no_request env args w :
  let download := run (download_phase env args) w in
  requests (world_of download) = requests w ∧
  filter (λ e, is_transcription_effect e) (events_of download) = [].
Proof. apply download_phase_confined. Qed.

(** X27 — The transcription phase runs no command.  Whatever the service
    answers, [main] from its transcription banner on never calls
    [yt-dlp]: no audio file is fetched again, and the count of the
    downloads is as the download phase left it. *)
Theorem transcription_phase_runs_no_command env args w :
  let phase := run (transcription_phase env args) w in
  runs (world_of phase) = runs w ∧
  filter (λ e, is_run e) (events_of phase) = [].
Proof. apply transcription_phase_confined. Qed.

(** X28 — A directory that cannot be made.  When [downloads/] is there
    and the output directory cannot be made (its parent is missing, say),
    [main] ends in the exception of [mkdir] right after the header: no
    client is created, no command is run, and it is not an exit with
    status 1. *)
Theorem main_raises_when_mkdir_fails env args w kind msg :
  path_mkdir env "downloads" = None →
  path_mkdir env (output args) = Some (kind, msg) →
  run (main env args) w =
    (Raise (OtherException kind msg), w,
     [EvPrint MsgHeader; EvMkdir "downloads"; EvMkdir (output args)]).
Proof. apply main_mkdir_failure_run. Qed.

Lemma main_raises_when_mkdir_fails_witness :
  run (main no_parent_env (mkArgs "https://www.youtube.com/watch?v=a1" "sk-test" "a/b" 5))
    one_file =
    (Raise (OtherException FileNotFoundError
              "[Errno 2] No such file or directory: 'a/b'"), one_file,
     [EvPrint MsgHeader; EvMkdir "downloads"; EvMkdir "a/b"]).
Proof.
  apply (main_raises_when_mkdir_fails no_parent_env
           (mkArgs "https://www.youtube.com/watch?v=a1" "sk-test" "a/b" 5) one_file
           FileNotFoundError "[Errno 2] No such file or directory: 'a/b'");
    reflexivity.
Defined.
